(** * Lichess PGN feature extraction: a model of
    [pgn_parser_movelevel_features.py] and the properties of its
    record assembler, feature extractor, batch accumulator and schema writer.

    Conventions of the embedding.
    - A Python [str] is a [string]; its characters are the code points
      below 256 (Latin-1), which is where every character the code tests
      for (whitespace, digits, brackets, quotes) lives.
    - A Python [int] is a [Z].
    - A Python [dict] keeps insertion order, and [pandas.DataFrame] reads
      the column order off it, so a dict is an association list with
      in-place update.
    - A Python [set] is a [gset string]; the order in which [list(s)]
      enumerates it is not fixed by the language and is a parameter.
    - Exceptions are an error monad; files written and lines printed are
      an explicit [World] threaded through the loop.
    - The [chess] library is external: [chess.pgn.read_game] is a
      parameter, a game is the list of its mainline nodes. *)

From Stdlib Require Import ZArith Lia Ascii String List.
From Stdlib Require Import DecimalString DecimalZ DecimalFacts.
From Stdlib Require Import Floats.SpecFloat.
From stdpp Require Import base gmap strings list list_numbers sorting.

Local Open Scope Z_scope.

(** ** Python strings *)

Module PyStr.

(** [c.isspace()] for a code point below 256. *)
Definition isspace (c : ascii) : bool :=
  let n := N_of_ascii c in
  ((9 <=? n) && (n <=? 13) || (28 <=? n) && (n <=? 32)
   || (n =? 133) || (n =? 160))%N.

(** [c.isdigit()] for a code point below 256: the ASCII digits and the
    superscripts 1, 2, 3. *)
Definition isdigit (c : ascii) : bool :=
  let n := N_of_ascii c in
  ((48 <=? n) && (n <=? 57) || (n =? 178) || (n =? 179) || (n =? 185))%N.

Fixpoint all_space (s : string) : bool :=
  match s with
  | EmptyString => true
  | String c s' => isspace c && all_space s'
  end.

Fixpoint lstrip (s : string) : string :=
  match s with
  | EmptyString => EmptyString
  | String c s' => if isspace c then lstrip s' else s
  end.

Fixpoint rstrip (s : string) : string :=
  match s with
  | EmptyString => EmptyString
  | String c s' => if all_space s then EmptyString else String c (rstrip s')
  end.

(** [s.strip()] *)
Definition strip (s : string) : string := rstrip (lstrip s).

(** [s[1:]] *)
Definition tail (s : string) : string :=
  match s with
  | EmptyString => EmptyString
  | String _ s' => s'
  end.

(** [s[:-1]] *)
Fixpoint init (s : string) : string :=
  match s with
  | EmptyString => EmptyString
  | String c EmptyString => EmptyString
  | String c s' => String c (init s')
  end.

(** [s[1:-1]] *)
Definition slice_1_m1 (s : string) : string := init (tail s).

(** Does a token start at the head of [s]? *)
Definition starts_token (s : string) : bool :=
  match s with
  | EmptyString => false
  | String c _ => negb (isspace c)
  end.

(** [s.split()]: the maximal runs of non-whitespace characters. *)
Fixpoint split (s : string) : list string :=
  match s with
  | EmptyString => []
  | String c s' =>
      if isspace c then split s'
      else if starts_token s' then
        match split s' with
        | t :: ts => String c t :: ts
        | [] => [String c EmptyString]
        end
      else String c EmptyString :: split s'
  end.

(** [sep.join(l)] *)
Fixpoint join (sep : string) (l : list string) : string :=
  match l with
  | [] => EmptyString
  | [x] => x
  | x :: l' => x +:+ sep +:+ join sep l'
  end.

(** [str(n)] for an int, as an f-string renders it. *)
Definition of_Z (n : Z) : string := NilZero.string_of_int (Z.to_int n).

(** [l[:-1]] and [l[-1]] on a list of lines. *)
Definition lines_init (l : list string) : list string := removelast l.
Definition lines_last (l : list string) : option string := last l.

End PyStr.

(** ** Python values, dicts and exceptions *)

Inductive pyval : Type :=
| VNone
| VInt (n : Z)
| VFloat (x : spec_float)
| VStr (s : string).

(** A dict with string keys: insertion-ordered, assignment to a key that
    is already there keeps its place. *)
Definition dict : Type := list (string * pyval).

Fixpoint dict_set (k : string) (v : pyval) (d : dict) : dict :=
  match d with
  | [] => [(k, v)]
  | (k', v') :: d' =>
      if decide (k = k') then (k, v) :: d' else (k', v') :: dict_set k v d'
  end.

Fixpoint dict_get (k : string) (d : dict) : option pyval :=
  match d with
  | [] => None
  | (k', v') :: d' => if decide (k = k') then Some v' else dict_get k d'
  end.

Definition dict_keys (d : dict) : list string := d.*1.

Inductive exn : Type := IndexError | AttributeError.

Inductive result (A : Type) : Type :=
| Ok (a : A)
| Raise (e : exn).
Arguments Ok {A} a.
Arguments Raise {A} e.

#[global] Instance result_bind : MBind result :=
  λ A B k r, match r with Ok a => k a | Raise e => Raise e end.
#[global] Instance result_ret : MRet result := λ A a, Ok a.

(** ** The chess library's interface

    The library is not part of the repository. A parsed game is modelled
    by what [parse_pgn] reads off it: the mainline (the chain of [next()]
    from the root), and per node the results of the calls the loop makes
    on it. *)

(** An evaluation annotation, [nextpos.eval()] when it is not [None]:
    [white_score] is [eval().white().score()], an int or [None];
    [is_mate] is [eval().is_mate()]. *)
Record Eval : Type := { white_score : option Z; is_mate : bool }.

(** A node below the root: [move_uci] is [nextpos.move.uci()],
    [node_clock] is [nextpos.clock()], a float or [None], and [node_eval]
    is [nextpos.eval()]. *)
Record ChildNode : Type := {
  move_uci : string;
  node_clock : option spec_float;
  node_eval : option Eval
}.

(** The mainline below the root. The movetext is read with no headers, so
    the root is the starting position, at ply 0. *)
Definition Game : Type := list ChildNode.

(** [game.end().ply()] *)
Definition end_ply (game : Game) : Z := Z.of_nat (length game).

(** [range(lo, hi)] *)
Definition range (lo hi : Z) : list Z := seqZ lo (hi - lo).

(** ** The feature extractor: [parse_pgn] *)

Section Extractor.

(** [chess.pgn.read_game(io.StringIO(s))]: [None] when the text holds no
    game. *)
Variable read_game : string → option Game.

(** One iteration of the header loop: [line[1:-1].split()], key
    [feature[0]], value [" ".join(feature[1:])[1:-1]]. *)
Definition header_line (features : dict) (line : string) : result dict :=
  match PyStr.split (PyStr.slice_1_m1 line) with
  | [] => Raise IndexError
  | key :: rest =>
      Ok (dict_set key (VStr (PyStr.slice_1_m1 (PyStr.join " " rest))) features)
  end.

(** [for line in lines: ...] over the header lines. *)
Fixpoint header_pass (features : dict) (lines : list string) : result dict :=
  match lines with
  | [] => Ok features
  | line :: lines' =>
      features' ← header_line features line; header_pass features' lines'
  end.

(** ['white' if ply % 2 == 1 else 'black'] *)
Definition player (ply : Z) : string :=
  if ply mod 2 =? 1 then "white" else "black".

(** [math.ceil(ply/2)]. The quotient is a float in the source; it is exact
    for every ply a game can have. *)
Definition movenum (ply : Z) : Z := (ply + 1) / 2.

(** [f'{player}_move{movenum}'] *)
Definition feature_name (ply : Z) : string :=
  player ply +:+ "_move" +:+ PyStr.of_Z (movenum ply).

(** [f'{feature_name}_<field>'] *)
Definition ply_key (ply : Z) (field : string) : string :=
  feature_name ply +:+ "_" +:+ field.

Definition clock_value (c : option spec_float) : pyval :=
  match c with Some x => VFloat x | None => VNone end.

Definition score_value (s : option Z) : pyval :=
  match s with Some cp => VInt cp | None => VNone end.

(** The body of the per-ply loop, after [nextpos = nextpos.next()]. *)
Definition ply_features (ply : Z) (nextpos : ChildNode) (features : dict) : dict :=
  let features := dict_set (ply_key ply "move") (VStr (move_uci nextpos)) features in
  let features :=
    dict_set (ply_key ply "timespent") (clock_value (node_clock nextpos)) features in
  match node_eval nextpos with
  | None => features
  | Some ev =>
      let features :=
        dict_set (ply_key ply "evalaftermove") (score_value (white_score ev)) features in
      if is_mate ev
      then dict_set (ply_key ply "eval_is_mate") (VInt 1) features
      else features
  end.

(** [for ply in plies: nextpos = nextpos.next(); ...]. [rest] is the
    mainline below [nextpos]; [next()] of the last node is [None], whose
    [.move] raises. *)
Fixpoint ply_loop (plies : list Z) (rest : Game) (features : dict) : result dict :=
  match plies with
  | [] => Ok features
  | ply :: plies' =>
      match rest with
      | [] => Raise AttributeError
      | nextpos :: rest' => ply_loop plies' rest' (ply_features ply nextpos features)
      end
  end.

Definition parse_pgn (lines : list string) (max_ply : Z) : result dict :=
  features ← header_pass [] (PyStr.lines_init lines);
  match PyStr.lines_last lines with
  | None => Raise IndexError
  | Some movetext =>
      match read_game movetext with
      | None => Raise AttributeError
      | Some game =>
          let features := dict_set "Ply" (VInt (end_ply game)) features in
          ply_loop (range 1 (Z.min (max_ply + 1) (end_ply game))) game features
      end
  end.

End Extractor.

(** ** Concrete records used by the examples *)

Module Sample.

Definition quoted (v : string) : string := String "034" (v +:+ String "034" "").

(** [[key "value"]] *)
Definition tag (key value : string) : string :=
  "[" +:+ key +:+ " " +:+ quoted value +:+ "]".

Definition node (uci : string) : ChildNode :=
  {| move_uci := uci; node_clock := None; node_eval := None |}.

(** A node whose evaluation is a mate. *)
Definition mating (uci : string) : ChildNode :=
  {| move_uci := uci;
     node_clock := None;
     node_eval := Some {| white_score := None; is_mate := true |} |}.

Definition five_plies : Game :=
  [node "e2e4"; node "e7e5"; node "g1f3"; node "b8c6"; node "f1b5"].

(** 1. f3 e5 2. g4 Qh4#, annotated: a clock and a centipawn evaluation
    after white's first move, a mate evaluation after white's second. *)
Definition fools_mate : Game :=
  [ {| move_uci := "f2f3";
       node_clock := Some (S754_finite false 300 0);
       node_eval := Some {| white_score := Some (-50); is_mate := false |} |};
    node "e7e5";
    mating "g2g4";
    node "d8h4" ].

(** An engine that answers every movetext with the given game. *)
Definition engine (g : Game) : string → option Game := λ _, Some g.

End Sample.

(** ** The batch accumulator and the schema writer *)

(** [pandas.DataFrame(game_batch)]: one row per dict, the columns are the
    keys in order of first appearance. A key a row lacks reads as NaN. *)
Record DataFrame : Type := { columns : list string; rows : list dict }.

Definition add_column (cols : list string) (k : string) : list string :=
  if decide (k ∈ cols) then cols else cols ++ [k].

Definition add_columns (cols : list string) (row : dict) : list string :=
  foldl add_column cols (dict_keys row).

Definition DataFrame_of (game_batch : list dict) : DataFrame :=
  {| columns := foldl add_columns [] game_batch; rows := game_batch |}.

(** [df.shape[0]] *)
Definition shape0 (df : DataFrame) : Z := Z.of_nat (length (rows df)).

(** What the run leaves behind: the files it wrote, in the order of the
    writes, and the lines it printed. *)
Inductive content : Type :=
| Csv (df : DataFrame)
| Text (s : string).

Record World : Type := { files : list (string * content); stdout : list string }.

Definition write_file (w : World) (path : string) (c : content) : World :=
  {| files := files w ++ [(path, c)]; stdout := stdout w |}.

Definition print (w : World) (line : string) : World :=
  {| files := files w; stdout := stdout w ++ [line] |}.

Definition newline : string := String "010" "".

(** [f'{export_path}/{export_name}_batch{batchnum}.csv'] *)
Definition csv_path (export_path export_name : string) (batchnum : Z) : string :=
  export_path +:+ "/" +:+ export_name +:+ "_batch" +:+ PyStr.of_Z batchnum +:+ ".csv".

(** [f'{export_path}/{export_name}_schema.txt'] *)
Definition schema_path (export_path export_name : string) : string :=
  export_path +:+ "/" +:+ export_name +:+ "_schema.txt".

(** [export(..., final_size=False)]: writes the CSV, returns the set of
    column names. *)
Definition export (w : World) (game_batch : list dict)
    (export_path export_name : string) (batchnum : Z) : World * gset string :=
  let game_df := DataFrame_of game_batch in
  (write_file w (csv_path export_path export_name batchnum) (Csv game_df),
   list_to_set (columns game_df)).

(** [export(..., final_size=True)]: writes the CSV, returns the list of
    column names and the number of rows. *)
Definition export_final (w : World) (game_batch : list dict)
    (export_path export_name : string) (batchnum : Z) : World * (list string * Z) :=
  let game_df := DataFrame_of game_batch in
  (write_file w (csv_path export_path export_name batchnum) (Csv game_df),
   (columns game_df, shape0 game_df)).

(** [f'{batchnum} batches exported ({total} total rows)'] *)
Definition progress (batchnum total : Z) : string :=
  PyStr.of_Z batchnum +:+ " batches exported (" +:+ PyStr.of_Z total +:+ " total rows)".

(** The schema manifest: [attribute + '\n'] for each name, in order. *)
Definition manifest (schema_columns : list string) : string :=
  foldr (λ attribute acc, attribute +:+ newline +:+ acc) "" schema_columns.

(** [sorted(l)] on strings: ascending by code point. *)
Definition sorted (l : list string) : list string := merge_sort String.le l.

Record Config : Type := {
  export_path : option string;
  export_name : option string;
  max_ply : Z;
  batch_size : Z;
  print_progress : bool
}.

(** The defaults of the command line. *)
Definition default_config : Config :=
  {| export_path := None; export_name := None; max_ply := 20;
     batch_size := 100000; print_progress := true |}.

Definition path_of (cfg : Config) : string := default "." (export_path cfg).
Definition name_of (cfg : Config) : string := default "lichess_games" (export_name cfg).

(** The local variables of [batch_load_files_fromconsole], and the world. *)
Record Loop : Type := {
  game_batch : list dict;
  currgame : list string;
  batchnum : Z;
  schema_columns : gset string;
  line_num : Z;
  world : World
}.

Definition init_loop : Loop :=
  {| game_batch := []; currgame := []; batchnum := 1; schema_columns := ∅;
     line_num := 0; world := {| files := []; stdout := [] |} |}.

(** The state after a line, or the exception that ended the run and the
    world as it was then. *)
Inductive outcome : Type :=
| Running (st : Loop)
| Aborted (e : exn) (w : World).

(** The number of leading lines the loop passes over. *)
Definition SKIPPED_LINES : Z := 50000000.

Section Pipeline.

Variable read_game : string → option Game.

(** [list(s)] for a set [s]: the elements in the interpreter's iteration
    order. *)
Variable set_order : gset string → list string.

(** [stripped[0].isdigit()] on a non-empty string. *)
Definition first_isdigit (stripped : string) : bool :=
  match stripped with
  | EmptyString => false
  | String c _ => PyStr.isdigit c
  end.

(** The end-of-batch branch. *)
Definition end_of_batch (cfg : Config) (st : Loop) (batch : list dict) : Loop :=
  if Z.of_nat (length batch) =? batch_size cfg then
    let '(w, cols) := export (world st) batch (path_of cfg) (name_of cfg) (batchnum st) in
    let w :=
      if print_progress cfg
      then print w (progress (batchnum st) (batchnum st * batch_size cfg))
      else w in
    {| game_batch := []; currgame := []; batchnum := batchnum st + 1;
       schema_columns := schema_columns st ∪ cols;
       line_num := line_num st; world := w |}
  else
    {| game_batch := batch; currgame := []; batchnum := batchnum st;
       schema_columns := schema_columns st;
       line_num := line_num st; world := world st |}.

(** The body of [for line in sys.stdin]. *)
Definition process_line (cfg : Config) (st : Loop) (line : string) : outcome :=
  if line_num st <? SKIPPED_LINES then
    Running {| game_batch := game_batch st; currgame := currgame st;
               batchnum := batchnum st; schema_columns := schema_columns st;
               line_num := line_num st + 1; world := world st |}
  else
    let stripped := PyStr.strip line in
    if decide (stripped = "") then Running st
    else if first_isdigit stripped then
      match parse_pgn read_game (currgame st ++ [stripped]) (max_ply cfg) with
      | Raise e => Aborted e (world st)
      | Ok features => Running (end_of_batch cfg st (game_batch st ++ [features]))
      end
    else
      Running {| game_batch := game_batch st; currgame := currgame st ++ [stripped];
                 batchnum := batchnum st; schema_columns := schema_columns st;
                 line_num := line_num st; world := world st |}.

Fixpoint run_loop (cfg : Config) (st : Loop) (stdin : list string) : outcome :=
  match stdin with
  | [] => Running st
  | line :: stdin' =>
      match process_line cfg st line with
      | Running st' => run_loop cfg st' stdin'
      | Aborted e w => Aborted e w
      end
  end.

(** After the loop: the final, possibly ragged, batch and the manifest. *)
Definition finish (cfg : Config) (st : Loop) : World :=
  let '(w, (last_batch_columns, final_size)) :=
    export_final (world st) (game_batch st) (path_of cfg) (name_of cfg) (batchnum st) in
  let schema := schema_columns st ∪ list_to_set last_batch_columns in
  let w :=
    if print_progress cfg
    then print w (progress (batchnum st) ((batchnum st - 1) * batch_size cfg + final_size))
    else w in
  let schema := sorted (set_order schema) in
  write_file w (schema_path (path_of cfg) (name_of cfg)) (Text (manifest schema)).

(** The run on the lines of standard input: the world it leaves, and the
    exception it ended with, if any. *)
Definition batch_load_files_fromconsole (cfg : Config) (stdin : list string)
    : World * option exn :=
  match run_loop cfg init_loop stdin with
  | Running st => (finish cfg st, None)
  | Aborted e w => (w, Some e)
  end.

End Pipeline.

(** ** Concrete streams used by the examples *)

Module SampleRun.

(** The lines the loop passes over before it reads any record. *)
Definition skipped : list string := replicate (Z.to_nat SKIPPED_LINES) "".

Definition movetext : string := "1. e4 e5 2. Nf3 Nc6 3. Bb5 1-0".

(** Five records as they stand in a Lichess export: header lines, a blank
    line, the movetext. *)
Definition r1 : list string :=
  [Sample.tag "Event" "Rated Blitz game"; Sample.tag "Site" "a"; ""; movetext].
Definition r2 : list string := [""; Sample.tag "Event" "Rated Bullet game"; ""; movetext].
Definition r3 : list string := [""; Sample.tag "WhiteTitle" "GM"; ""; movetext].
Definition r4 : list string := [""; Sample.tag "Event" "Casual game"; ""; movetext].
Definition r5 : list string := [""; Sample.tag "BlackTitle" "IM"; ""; movetext].

Definition engine : string → option Game := Sample.engine Sample.five_plies.

(** [--batch_size 2 --max_ply 1] *)
Definition pairs : Config :=
  {| export_path := None; export_name := None; max_ply := 1;
     batch_size := 2; print_progress := true |}.

(** The loop after the skipped lines and the first record. *)
Definition after_r1 : Loop :=
  {| game_batch :=
       [[("Event", VStr "Rated Blitz game"); ("Site", VStr "a"); ("Ply", VInt 5);
         ("white_move1_move", VStr "e2e4"); ("white_move1_timespent", VNone)]];
     currgame := []; batchnum := 1; schema_columns := ∅;
     line_num := 50000000; world := {| files := []; stdout := [] |} |}.

(** Two enumeration orders of a set. *)
Definition ascending : gset string → list string := elements.
Definition descending : gset string → list string := λ X, reverse (elements X).

End SampleRun.

(** ** Vocabulary of the statements *)

(** A string of ASCII digits. *)
Fixpoint all_digits (s : string) : bool :=
  match s with
  | EmptyString => true
  | String c s' => bool_decide (is_Some (Ascii.is_nat c)) && all_digits s'
  end.

(** The key a header line is stored under, when it has one. *)
Definition header_key (line : string) : option string :=
  head (PyStr.split (PyStr.slice_1_m1 line)).

(** The value a header line is stored with. *)
Definition header_value (line : string) : string :=
  PyStr.slice_1_m1 (PyStr.join " " (tail (PyStr.split (PyStr.slice_1_m1 line)))).

Definition header_keys (lines : list string) : list string :=
  omap header_key lines.

(** A token: a non-empty string with no whitespace in it. *)
Fixpoint word (s : string) : bool :=
  match s with
  | EmptyString => false
  | String c EmptyString => negb (PyStr.isspace c)
  | String c s' => negb (PyStr.isspace c) && word s'
  end.

Fixpoint drop_word (s : string) : string :=
  match s with
  | EmptyString => EmptyString
  | String c s' => if PyStr.isspace c then s else drop_word s'
  end.

(** Following the spec's words: the value of a header line is what
    follows the first whitespace-delimited token inside the brackets,
    with one layer of surrounding quotes stripped and everything between
    them kept character for character. *)
Definition spec_header_value (line : string) : string :=
  PyStr.slice_1_m1 (PyStr.lstrip (drop_word (PyStr.lstrip (PyStr.slice_1_m1 line)))).

(** A header line the header pass can read: it has a first token. *)
Definition tokenisable (line : string) : Prop := is_Some (header_key line).

(** The plies the per-ply loop visits. *)
Definition analyzed (max_ply : Z) (game : Game) (i : Z) : Prop :=
  1 ≤ i ≤ Z.min max_ply (end_ply game - 1).

(** Does the node's evaluation denote a forced mate? *)
Definition denotes_mate (n : ChildNode) : bool :=
  match node_eval n with
  | Some ev => is_mate ev
  | None => false
  end.

(** The CSV files of a world, in the order they were written. *)
Definition artifacts (w : World) : list (string * DataFrame) :=
  omap (λ f, match f.2 with Csv df => Some (f.1, df) | Text _ => None end) (files w).

(** The text files of a world, in the order they were written. *)
Definition manifests (w : World) : list (string * string) :=
  omap (λ f, match f.2 with Text s => Some (f.1, s) | Csv _ => None end) (files w).

Definition row_counts (w : World) : list Z := (λ a, shape0 a.2) <$> artifacts w.

Definition total_rows (w : World) : Z := foldr Z.add 0 (row_counts w).

(** The loop state with its line counter set. *)
Definition with_line_num (st : Loop) (n : Z) : Loop :=
  {| game_batch := game_batch st; currgame := currgame st; batchnum := batchnum st;
     schema_columns := schema_columns st; line_num := n; world := world st |}.

(** The lines of a stream that go into the record buffer: stripped, the
    blank ones left out. *)
Definition buffered (lines : list string) : list string :=
  filter (λ s, s ≠ "") (PyStr.strip <$> lines).

(** A line the assembler keeps for later or passes over: blank, or not
    starting with a digit. *)
Definition unterminated (line : string) : Prop :=
  first_isdigit (PyStr.strip line) = false.

(** A line of a well-formed record before its movetext: blank, or a
    header line with a key. *)
Definition header_or_blank (line : string) : Prop :=
  PyStr.strip line = ""
  ∨ (first_isdigit (PyStr.strip line) = false ∧ tokenisable (PyStr.strip line)).

(** A well-formed record, as lines of the stream: header lines (blank
    lines between them), then one movetext line that starts with a digit
    and that the engine reads. *)
Definition well_formed_record (read_game : string → option Game)
    (record : list string) : Prop :=
  ∃ hdrs movetext,
    record = hdrs ++ [movetext]
    ∧ Forall header_or_blank hdrs
    ∧ first_isdigit (PyStr.strip movetext) = true
    ∧ is_Some (read_game (PyStr.strip movetext)).

(** What the accumulator has written when the loop is at a line: one
    artifact per batch number passed, each with [batch_size] rows. *)
Definition accumulated (cfg : Config) (st : Loop) : Prop :=
  1 ≤ batchnum st
  ∧ Z.of_nat (length (artifacts (world st))) = batchnum st - 1
  ∧ Forall (λ n, n = batch_size cfg) (row_counts (world st)).

(** A string with no line break in it. *)
Fixpoint one_line (s : string) : bool :=
  match s with
  | EmptyString => true
  | String c s' => negb (Ascii.eqb c "010") && one_line s'
  end.

(** The lines of a text in which every line ends with a line break. *)
Fixpoint lines_of (text : string) : list string :=
  match text with
  | EmptyString => []
  | String c text' =>
      if Ascii.eqb c "010" then EmptyString :: lines_of text'
      else match lines_of text' with
           | l :: ls => String c l :: ls
           | [] => [String c EmptyString]
           end
  end.

(** A mapping none of whose keys has a line break. *)
Definition clean_keys (d : dict) : Prop :=
  Forall (λ k, one_line k = true) (dict_keys d).

(** What the loop keeps of the mappings it holds and of the names it has
    seen: none has a line break. *)
Definition clean (st : Loop) : Prop :=
  Forall clean_keys (game_batch st)
  ∧ ∀ a, a ∈ schema_columns st → one_line a = true.

(** An enumeration of sets, as [list(s)] is one: each element once. *)
Definition enumerates (set_order : gset string → list string) : Prop :=
  ∀ X, set_order X ≡ₚ elements X.

(** ** Vocabulary of the further properties *)

(** The keys one iteration of the per-ply loop writes for a node. *)
Definition node_keys (ply : Z) (n : ChildNode) : list string :=
  [ply_key ply "move"; ply_key ply "timespent"]
  ++ match node_eval n with
     | None => []
     | Some ev =>
         ply_key ply "evalaftermove"
         :: (if is_mate ev then [ply_key ply "eval_is_mate"] else [])
     end.

(** The records the assembler completes from the lines it reads past the
    skipped ones, when the buffer holds [buf] at the start: blank lines
    are passed over, a line that starts with a digit closes a record, any
    other line is buffered. A record is its stripped lines. *)
Fixpoint records (buf : list string) (lines : list string) : list (list string) :=
  match lines with
  | [] => []
  | line :: lines' =>
      let stripped := PyStr.strip line in
      if decide (stripped = "") then records buf lines'
      else if first_isdigit stripped then (buf ++ [stripped]) :: records [] lines'
      else records (buf ++ [stripped]) lines'
  end.

(** [parse_pgn] on each record in turn, up to the first exception. *)
Fixpoint extract_all (read_game : string → option Game) (max_ply : Z)
    (recs : list (list string)) : result (list dict) :=
  match recs with
  | [] => Ok []
  | r :: recs' =>
      features ← parse_pgn read_game r max_ply;
      rest ← extract_all read_game max_ply recs';
      Ok (features :: rest)
  end.

(** The rows of the artifacts of a world, in the order they were written. *)
Definition rows_written (w : World) : list dict :=
  concat ((λ a : string * DataFrame, rows a.2) <$> artifacts w).

(** The lines of the stream behind the skipped ones. *)
Definition behind_skip (stdin : list string) : list string :=
  drop (Z.to_nat SKIPPED_LINES) stdin.

(** The batch at hand is below capacity. *)
Definition below_capacity (cfg : Config) (st : Loop) : Prop :=
  Z.of_nat (length (game_batch st)) < batch_size cfg.

(** No batch number passed, nothing written or printed. *)
Definition unbatched (st : Loop) : Prop :=
  batchnum st = 1 ∧ world st = world init_loop.

(** The paths of the files of a world, in the order they were written. *)
Definition paths (w : World) : list string := (files w).*1.

(** The loop has written the batch files 1 to [batchnum - 1], and no
    other file. *)
Definition numbered (cfg : Config) (st : Loop) : Prop :=
  1 ≤ batchnum st
  ∧ paths (world st)
    = csv_path (path_of cfg) (name_of cfg) <$> seqZ 1 (batchnum st - 1)
  ∧ manifests (world st) = [].

(** The loop has printed one progress line per batch number passed, each
    with the rows written up to then, when it prints at all. *)
Definition reported (cfg : Config) (st : Loop) : Prop :=
  1 ≤ batchnum st
  ∧ stdout (world st)
    = if print_progress cfg
      then (λ k, progress k (k * batch_size cfg)) <$> seqZ 1 (batchnum st - 1)
      else [].

(** The names the loop has seen are the keys of the rows it has written. *)
Definition schema_of_rows (st : Loop) : Prop :=
  ∀ a, a ∈ schema_columns st
       ↔ ∃ row, row ∈ rows_written (world st) ∧ a ∈ dict_keys row.

(** ** The reconciliation stage: [schema_building.py]

    The functions of this stage work on [pandas] frames read back from
    the batch files. What is modelled here is what they do to a cell and
    how they choose the cast of a column: the string operations of the
    lambdas they apply, and the tests on the column name. *)

Module SchemaBuilding.

(** [s.replace(old, new)] for one-character [old] and [new]. *)
Fixpoint replace (old new : ascii) (s : string) : string :=
  match s with
  | EmptyString => EmptyString
  | String c s' => String (if Ascii.eqb c old then new else c) (replace old new s')
  end.

(** [s.find(c)] for a one-character [c]: the lowest index of [c] in [s],
    or -1. *)
Fixpoint find (c : ascii) (s : string) : Z :=
  match s with
  | EmptyString => -1
  | String a s' =>
      if Ascii.eqb a c then 0
      else let r := find c s' in if r <? 0 then -1 else r + 1
  end.

Fixpoint take (n : nat) (s : string) : string :=
  match n, s with
  | S n', String c s' => String c (take n' s')
  | _, _ => EmptyString
  end.

Fixpoint drop (n : nat) (s : string) : string :=
  match n, s with
  | S n', String _ s' => drop n' s'
  | _, _ => s
  end.

(** A slice bound as Python reads it: a negative bound counts from the
    end, and every bound is clipped to the string. *)
Definition bound (s : string) (i : Z) : nat :=
  let n := Z.of_nat (String.length s) in
  Z.to_nat (if i <? 0 then Z.max 0 (i + n) else Z.min i n).

(** [s[:stop]] *)
Definition slice_to (s : string) (stop : Z) : string := take (bound s stop) s.

(** [s[start:]] *)
Definition slice_from (s : string) (start : Z) : string := drop (bound s start) s.

(** [s.startswith(needle)] *)
Fixpoint prefix (needle s : string) : bool :=
  match needle, s with
  | EmptyString, _ => true
  | String a needle', String b s' => Ascii.eqb a b && prefix needle' s'
  | String _ _, EmptyString => false
  end.

(** [needle in s] *)
Fixpoint contains (needle s : string) : bool :=
  prefix needle s
  || match s with
     | EmptyString => false
     | String _ s' => contains needle s'
     end.

(** [s.split(sep)] for a one-character [sep]: never empty. *)
Fixpoint split_on (sep : ascii) (s : string) : list string :=
  match s with
  | EmptyString => [EmptyString]
  | String c s' =>
      if Ascii.eqb c sep then EmptyString :: split_on sep s'
      else match split_on sep s' with
           | x :: xs => String c x :: xs
           | [] => [String c EmptyString]
           end
  end.

(** [lambda date: date.replace('.', '-')], applied to the cells of [Date]
    and [UTCDate] by [fix_dates_times]. *)
Definition fix_date (date : string) : string := replace "." "-" date.

(** [lambda time: time[:time.find('+')]], the cell of [StartTime]. *)
Definition start_time (time : string) : string := slice_to time (find "+" time).

(** [lambda time: time[(time.find('+')+1):]], the cell of [Increment]. *)
Definition increment (time : string) : string := slice_from time (find "+" time + 1).

(** What [update_feature_types] does to a column, by its name. *)
Inductive cast : Type := ToNumeric | ToBool | NoCast.

Definition cast_of (col : string) : cast :=
  if contains "evalaftermove" col then ToNumeric
  else if contains "timespent" col then ToNumeric
  else if contains "eval_is_mate" col then ToBool
  else if contains "RatingDiff" col then ToNumeric
  else NoCast.

(** [csv_path.split('/')[-1]] in [main]. *)
Definition filename (csv_path : string) : result string :=
  match last (split_on "/" csv_path) with
  | Some name => Ok name
  | None => Raise IndexError
  end.

(** The columns [main] adds to those of the batch files:
    [{'UTCDateTime', 'StartTime', 'Increment'}]. *)
Definition engineered_columns : list string := ["UTCDateTime"; "StartTime"; "Increment"].

(** The columns [main] gives every reconciled file, in the order it
    writes them: [all_cols.union(set(curr_df.columns.values))] over the
    batch files, then [sorted(list(all_cols))]. [file_columns] holds the
    columns of each batch file as [pandas] reads them. *)
Definition all_cols (set_order : gset string → list string)
    (file_columns : list (list string)) : list string :=
  sorted (set_order (foldl (λ acc cols, acc ∪ list_to_set cols)
                       (list_to_set engineered_columns) file_columns)).

End SchemaBuilding.

(** ** The upload schema: [upload.py] *)

Module Upload.

Definition SCHEMA : list (string * string) :=
  [("Black", "STRING");
   ("BlackElo", "FLOAT64");
   ("BlackRatingDiff", "FLOAT64");
   ("BlackTitle", "STRING");
   ("Date", "STRING");
   ("ECO", "STRING");
   ("Event", "STRING");
   ("Increment", "FLOAT64");
   ("Opening", "STRING");
   ("Ply", "FLOAT64");
   ("Result", "STRING");
   ("Round", "FLOAT64");
   ("Site", "STRING");
   ("StartTime", "FLOAT64");
   ("Termination", "STRING");
   ("TimeControl", "STRING");
   ("UTCDate", "DATE");
   ("UTCDateTime", "DATETIME");
   ("UTCTime", "TIME");
   ("White", "STRING");
   ("WhiteElo", "FLOAT64");
   ("WhiteRatingDiff", "FLOAT64");
   ("WhiteTitle", "STRING");
   ("black_move10_eval_is_mate", "BOOL");
   ("black_move10_evalaftermove", "FLOAT64");
   ("black_move10_move", "STRING");
   ("black_move10_timespent", "FLOAT64");
   ("black_move1_evalaftermove", "FLOAT64");
   ("black_move1_move", "STRING");
   ("black_move1_timespent", "FLOAT64");
   ("black_move2_eval_is_mate", "BOOL");
   ("black_move2_evalaftermove", "FLOAT64");
   ("black_move2_move", "STRING");
   ("black_move2_timespent", "FLOAT64");
   ("black_move3_eval_is_mate", "BOOL");
   ("black_move3_evalaftermove", "FLOAT64");
   ("black_move3_move", "STRING");
   ("black_move3_timespent", "FLOAT64");
   ("black_move4_eval_is_mate", "BOOL");
   ("black_move4_evalaftermove", "FLOAT64");
   ("black_move4_move", "STRING");
   ("black_move4_timespent", "FLOAT64");
   ("black_move5_eval_is_mate", "BOOL");
   ("black_move5_evalaftermove", "FLOAT64");
   ("black_move5_move", "STRING");
   ("black_move5_timespent", "FLOAT64");
   ("black_move6_eval_is_mate", "BOOL");
   ("black_move6_evalaftermove", "FLOAT64");
   ("black_move6_move", "STRING");
   ("black_move6_timespent", "FLOAT64");
   ("black_move7_eval_is_mate", "BOOL");
   ("black_move7_evalaftermove", "FLOAT64");
   ("black_move7_move", "STRING");
   ("black_move7_timespent", "FLOAT64");
   ("black_move8_eval_is_mate", "BOOL");
   ("black_move8_evalaftermove", "FLOAT64");
   ("black_move8_move", "STRING");
   ("black_move8_timespent", "FLOAT64");
   ("black_move9_eval_is_mate", "BOOL");
   ("black_move9_evalaftermove", "FLOAT64");
   ("black_move9_move", "STRING");
   ("black_move9_timespent", "FLOAT64");
   ("white_move10_eval_is_mate", "BOOL");
   ("white_move10_evalaftermove", "FLOAT64");
   ("white_move10_move", "STRING");
   ("white_move10_timespent", "FLOAT64");
   ("white_move1_evalaftermove", "FLOAT64");
   ("white_move1_move", "STRING");
   ("white_move1_timespent", "FLOAT64");
   ("white_move2_eval_is_mate", "BOOL");
   ("white_move2_evalaftermove", "FLOAT64");
   ("white_move2_move", "STRING");
   ("white_move2_timespent", "FLOAT64");
   ("white_move3_eval_is_mate", "BOOL");
   ("white_move3_evalaftermove", "FLOAT64");
   ("white_move3_move", "STRING");
   ("white_move3_timespent", "FLOAT64");
   ("white_move4_eval_is_mate", "BOOL");
   ("white_move4_evalaftermove", "FLOAT64");
   ("white_move4_move", "STRING");
   ("white_move4_timespent", "FLOAT64");
   ("white_move5_eval_is_mate", "BOOL");
   ("white_move5_evalaftermove", "FLOAT64");
   ("white_move5_move", "STRING");
   ("white_move5_timespent", "FLOAT64");
   ("white_move6_eval_is_mate", "BOOL");
   ("white_move6_evalaftermove", "FLOAT64");
   ("white_move6_move", "STRING");
   ("white_move6_timespent", "FLOAT64");
   ("white_move7_eval_is_mate", "BOOL");
   ("white_move7_evalaftermove", "FLOAT64");
   ("white_move7_move", "STRING");
   ("white_move7_timespent", "FLOAT64");
   ("white_move8_eval_is_mate", "BOOL");
   ("white_move8_evalaftermove", "FLOAT64");
   ("white_move8_move", "STRING");
   ("white_move8_timespent", "FLOAT64");
   ("white_move9_eval_is_mate", "BOOL");
   ("white_move9_evalaftermove", "FLOAT64");
   ("white_move9_move", "STRING");
   ("white_move9_timespent", "FLOAT64")].

End Upload.

(** A string with no ASCII digit in it. *)
Fixpoint no_digit (s : string) : bool :=
  match s with
  | EmptyString => true
  | String c s' => negb (bool_decide (is_Some (Ascii.is_nat c))) && no_digit s'
  end.

(** ** More concrete inputs *)

Module SampleMore.

(** [--batch_size 0 --max_ply 1] *)
Definition unbounded : Config :=
  {| export_path := None; export_name := None; max_ply := 1;
     batch_size := 0; print_progress := true |}.


End SampleMore.

(** * Properties *)

(** ** Dicts *)

Lemma dict_get_set k k' v d :
  dict_get k (dict_set k' v d) = if decide (k = k') then Some v else dict_get k d.
Proof.
  induction d as [|[k0 v0] d IH]; simpl.
  - destruct (decide (k = k')); reflexivity.
  - destruct (decide (k' = k0)) as [->|Hne]; simpl.
    + destruct (decide (k = k0)); reflexivity.
    + destruct (decide (k = k0)) as [->|Hne'].
      * destruct (decide (k0 = k')); congruence.
      * exact IH.
Qed.

Lemma dict_get_set_eq k v d : dict_get k (dict_set k v d) = Some v.
Proof. rewrite dict_get_set. destruct (decide (k = k)); congruence. Qed.

Lemma dict_get_set_ne k k' v d : k ≠ k' → dict_get k (dict_set k' v d) = dict_get k d.
Proof. intros. rewrite dict_get_set. destruct (decide (k = k')); congruence. Qed.

Lemma dict_get_None k d : dict_get k d = None ↔ k ∉ dict_keys d.
Proof.
  unfold dict_keys. induction d as [|[k0 v0] d IH]; simpl.
  - split; [intros _; apply not_elem_of_nil | reflexivity].
  - rewrite not_elem_of_cons. destruct (decide (k = k0)) as [->|Hne].
    + split; [discriminate | intros [? _]; congruence].
    + rewrite IH. tauto.
Qed.

(** ** Strings and per-ply keys *)

Lemma str_app_cons c s t : String c s +:+ t = String c (s +:+ t).
Proof. reflexivity. Qed.

Lemma str_app_nil t : "" +:+ t = t.
Proof. reflexivity. Qed.

Lemma str_app_assoc s t u : (s +:+ t) +:+ u = s +:+ t +:+ u.
Proof. induction s as [|c s IH]; [reflexivity|]. rewrite !str_app_cons. by f_equal. Qed.

Lemma str_app_nil_r s : s +:+ "" = s.
Proof. induction s as [|c s IH]; [reflexivity|]. rewrite str_app_cons. by f_equal. Qed.

Lemma all_digits_uint d : all_digits (NilEmpty.string_of_uint d) = true.
Proof. induction d; simpl; auto. Qed.

Lemma all_digits_of_Z n : 0 ≤ n → all_digits (PyStr.of_Z n) = true.
Proof.
  intros Hn. unfold PyStr.of_Z. destruct n as [|p|p]; [reflexivity| |lia].
  simpl. unfold NilZero.string_of_uint.
  destruct (Pos.to_uint p) eqn:E; try reflexivity; rewrite <- E;
    apply all_digits_uint.
Qed.

Lemma of_Z_inj a b : PyStr.of_Z a = PyStr.of_Z b → a = b.
Proof.
  unfold PyStr.of_Z. intros H. apply DecimalZ.to_int_inj.
  assert (Hnn : ∀ n, Z.to_int n ≠ Decimal.Pos Decimal.Nil
                   ∧ Z.to_int n ≠ Decimal.Neg Decimal.Nil).
  { intros [|p|p]; simpl; split; try discriminate;
      intros [= E]; revert E; apply DecimalPos.Unsigned.to_uint_nonnil. }
  pose proof (NilZero.isi (Z.to_int a) (proj1 (Hnn a)) (proj2 (Hnn a))) as Ha.
  pose proof (NilZero.isi (Z.to_int b) (proj1 (Hnn b)) (proj2 (Hnn b))) as Hb.
  rewrite H in Ha. congruence.
Qed.

(** Two digit strings followed by an underscore: equal wholes have equal
    parts. *)
Lemma digits_underscore_inj d1 d2 f g :
  all_digits d1 = true → all_digits d2 = true →
  d1 +:+ "_" +:+ f = d2 +:+ "_" +:+ g → d1 = d2 ∧ f = g.
Proof.
  revert d2. induction d1 as [|c d1 IH]; intros [|c2 d2]; simpl; intros H1 H2.
  - rewrite ?str_app_nil, ?str_app_cons, ?str_app_nil. intros [= ->]. auto.
  - rewrite ?str_app_nil, ?str_app_cons, ?str_app_nil. intros [= <- _].
    simpl in H2. discriminate.
  - rewrite ?str_app_nil, ?str_app_cons, ?str_app_nil. intros [= -> _].
    simpl in H1. discriminate.
  - rewrite ?str_app_cons. intros [= -> E].
    apply andb_prop in H1 as [_ H1]. apply andb_prop in H2 as [_ H2].
    destruct (IH d2 H1 H2 E) as [-> ->]. auto.
Qed.

Lemma movenum_nonneg i : 1 ≤ i → 0 ≤ movenum i.
Proof. intros. unfold movenum. apply Z.div_pos; lia. Qed.

(** A ply is determined by its side and its move number. *)
Lemma ply_of_player_movenum i j :
  player i = player j → movenum i = movenum j → i = j.
Proof.
  unfold player, movenum. intros Hp Hm.
  assert (Hi := Z.mod_pos_bound i 2 eq_refl).
  assert (Hj := Z.mod_pos_bound j 2 eq_refl).
  assert (i mod 2 = j mod 2) as Hpar.
  { destruct (Z.eqb_spec (i mod 2) 1), (Z.eqb_spec (j mod 2) 1);
      try discriminate; lia. }
  pose proof (Z.div_mod i 2 ltac:(lia)). pose proof (Z.div_mod j 2 ltac:(lia)).
  pose proof (Z.div_mod (i + 1) 2 ltac:(lia)).
  pose proof (Z.div_mod (j + 1) 2 ltac:(lia)).
  assert (Hi' := Z.mod_pos_bound (i + 1) 2 eq_refl).
  assert (Hj' := Z.mod_pos_bound (j + 1) 2 eq_refl).
  lia.
Qed.

(** Per-ply keys name their ply and their field unambiguously. *)
Lemma ply_key_inj i j f g :
  1 ≤ i → 1 ≤ j → ply_key i f = ply_key j g → i = j ∧ f = g.
Proof.
  intros Hi Hj. unfold ply_key, feature_name.
  assert (Hd := all_digits_of_Z _ (movenum_nonneg i Hi)).
  assert (He := all_digits_of_Z _ (movenum_nonneg j Hj)).
  intros H.
  assert (player i = player j ∧
          PyStr.of_Z (movenum i) +:+ "_" +:+ f = PyStr.of_Z (movenum j) +:+ "_" +:+ g)
    as [Hp E].
  { revert H. unfold player.
    destruct (i mod 2 =? 1), (j mod 2 =? 1);
      rewrite !str_app_assoc; rewrite !str_app_cons, !str_app_nil;
      intros [= E]; auto. }
  destruct (digits_underscore_inj _ _ _ _ Hd He E) as [Hm ->].
  split; [|reflexivity].
  apply ply_of_player_movenum; [exact Hp | exact (of_Z_inj _ _ Hm)].
Qed.

Lemma ply_key_field_inj i f g : ply_key i f = ply_key i g → f = g.
Proof.
  unfold ply_key. intros H.
  apply (inj (String.app _)) in H. apply (inj (String.app _)) in H. exact H.
Qed.

Lemma ply_key_not_Ply i f : ply_key i f ≠ "Ply".
Proof.
  unfold ply_key, feature_name, player.
  destruct (i mod 2 =? 1); rewrite !str_app_assoc;
    rewrite !str_app_cons; discriminate.
Qed.

(** ** The header pass *)

Lemma header_line_key features line key :
  header_key line = Some key →
  header_line features line
  = Ok (dict_set key (VStr (header_value line)) features).
Proof.
  unfold header_key, header_value, header_line.
  destruct (PyStr.split (PyStr.slice_1_m1 line)) as [|k rest]; simpl; congruence.
Qed.

Lemma header_line_raise features line :
  header_key line = None → header_line features line = Raise IndexError.
Proof.
  unfold header_key, header_line.
  destruct (PyStr.split (PyStr.slice_1_m1 line)); simpl; congruence.
Qed.

Lemma header_pass_cons features line lines :
  header_pass features (line :: lines)
  = match header_line features line with
    | Ok features' => header_pass features' lines
    | Raise e => Raise e
    end.
Proof. reflexivity. Qed.

Lemma header_pass_ok features lines :
  Forall tokenisable lines → ∃ features', header_pass features lines = Ok features'.
Proof.
  intros H. revert features. induction H as [|line lines [key Hk] _ IH]; intros features.
  - by exists features.
  - rewrite header_pass_cons, (header_line_key _ _ _ Hk). apply IH.
Qed.

Lemma header_pass_raise features lines h :
  h ∈ lines → header_key h = None → header_pass features lines = Raise IndexError.
Proof.
  intros Hin Hh. revert features.
  induction Hin as [h lines|h line lines _ IH]; intros features;
    rewrite header_pass_cons.
  - by rewrite header_line_raise.
  - destruct (header_key line) as [key|] eqn:Hk.
    + rewrite (header_line_key _ _ _ Hk). apply IH, Hh.
    + by rewrite header_line_raise.
Qed.

Lemma header_keys_cons_Some line lines key :
  header_key line = Some key → header_keys (line :: lines) = key :: header_keys lines.
Proof. unfold header_keys. simpl. by intros ->. Qed.

(** A key no header line carries is left as it was. *)
Lemma header_pass_get_other features lines features' k :
  header_pass features lines = Ok features' →
  k ∉ header_keys lines → dict_get k features' = dict_get k features.
Proof.
  revert features. induction lines as [|line lines IH]; intros features.
  - by intros [= ->].
  - rewrite header_pass_cons. destruct (header_key line) as [key|] eqn:Hk.
    + rewrite (header_line_key _ _ _ Hk), (header_keys_cons_Some _ _ _ Hk).
      intros H [Hne Hnot]%not_elem_of_cons.
      rewrite (IH _ H Hnot). by apply dict_get_set_ne.
    + by rewrite header_line_raise.
Qed.

(** The last line that carries a key decides its value. *)
Lemma header_pass_last_wins features before h after features' k :
  header_pass features (before ++ h :: after) = Ok features' →
  header_key h = Some k → k ∉ header_keys after →
  dict_get k features' = Some (VStr (header_value h)).
Proof.
  revert features. induction before as [|line before IH]; intros features; simpl app.
  - rewrite header_pass_cons. intros H Hk Hnot.
    rewrite (header_line_key _ _ _ Hk) in H.
    rewrite (header_pass_get_other _ _ _ _ H Hnot). apply dict_get_set_eq.
  - rewrite header_pass_cons. destruct (header_line features line); [|discriminate].
    apply IH.
Qed.

(** ** The per-ply pass *)

Lemma ply_features_get k ply node g1 g2 :
  dict_get k g1 = dict_get k g2 →
  dict_get k (ply_features ply node g1) = dict_get k (ply_features ply node g2).
Proof.
  intros H. unfold ply_features.
  destruct (node_eval node) as [ev|]; [destruct (is_mate ev)|];
    rewrite !dict_get_set, H; reflexivity.
Qed.

Lemma ply_features_get_other k ply node g :
  (∀ field, k ≠ ply_key ply field) →
  dict_get k (ply_features ply node g) = dict_get k g.
Proof.
  intros H. unfold ply_features.
  destruct (node_eval node) as [ev|]; [destruct (is_mate ev)|];
    rewrite !dict_get_set;
    repeat (match goal with |- context [decide (k = ?x)] =>
              destruct (decide (k = x)) as [E|_]; [by apply H in E|] end);
    reflexivity.
Qed.

Ltac field_ne :=
  let E := fresh in intros E; apply ply_key_field_inj in E; discriminate E.

Lemma ply_features_move ply node g :
  dict_get (ply_key ply "move") (ply_features ply node g) = Some (VStr (move_uci node)).
Proof.
  unfold ply_features.
  destruct (node_eval node) as [ev|]; [destruct (is_mate ev)|];
    repeat (rewrite dict_get_set_ne by field_ne); apply dict_get_set_eq.
Qed.

Lemma ply_features_timespent ply node g :
  dict_get (ply_key ply "timespent") (ply_features ply node g)
  = Some (clock_value (node_clock node)).
Proof.
  unfold ply_features.
  destruct (node_eval node) as [ev|]; [destruct (is_mate ev)|];
    repeat (rewrite dict_get_set_ne by field_ne); apply dict_get_set_eq.
Qed.

Lemma ply_features_eval_is_mate ply node g :
  dict_get (ply_key ply "eval_is_mate") (ply_features ply node g)
  = if denotes_mate node then Some (VInt 1)
    else dict_get (ply_key ply "eval_is_mate") g.
Proof.
  unfold ply_features, denotes_mate.
  destruct (node_eval node) as [ev|]; [destruct (is_mate ev)|];
    repeat (rewrite dict_get_set_ne by field_ne);
    reflexivity || apply dict_get_set_eq.
Qed.

Lemma ply_loop_ok plies rest features :
  (length plies ≤ length rest)%nat → ∃ features', ply_loop plies rest features = Ok features'.
Proof.
  revert rest features. induction plies as [|ply plies IH]; intros rest features Hlen.
  - by exists features.
  - destruct rest as [|node rest]; simpl in *; [lia|]. apply IH. lia.
Qed.

(** The loop leaves alone every key that is not of a ply it visits. *)
Lemma ply_loop_get_other plies rest features features' k :
  ply_loop plies rest features = Ok features' →
  (∀ p field, p ∈ plies → k ≠ ply_key p field) →
  dict_get k features' = dict_get k features.
Proof.
  revert rest features. induction plies as [|ply plies IH]; intros rest features.
  - by intros [= ->].
  - destruct rest as [|node rest]; simpl; [discriminate|]. intros H Hk.
    rewrite (IH _ _ H).
    + apply ply_features_get_other. intros field. apply Hk. left.
    + intros p field Hp. apply Hk. by right.
Qed.

(** The keys of a visited ply hold what its own iteration wrote. *)
Lemma ply_loop_get_at plies rest features features' j p node field :
  Forall (λ q, 1 ≤ q) plies → NoDup plies →
  plies !! j = Some p → rest !! j = Some node →
  ply_loop plies rest features = Ok features' →
  dict_get (ply_key p field) features'
  = dict_get (ply_key p field) (ply_features p node features).
Proof.
  revert rest features j.
  induction plies as [|q plies IH]; intros rest features j Hpos Hnd Hp Hn; [done|].
  destruct rest as [|n0 rest]; [done|]. simpl.
  apply Forall_cons in Hpos as [Hq Hpos]. apply NoDup_cons in Hnd as [Hq' Hnd].
  destruct j as [|j]; simpl in Hp, Hn.
  - injection Hp as ->. injection Hn as ->. intros H.
    apply (ply_loop_get_other _ _ _ _ _ H). intros p' field' Hin E.
    apply ply_key_inj in E as [-> _]; [done|done|].
    by apply (proj1 (Forall_forall _ _) Hpos).
  - intros H. rewrite (IH _ _ _ Hpos Hnd Hp Hn H).
    apply ply_features_get, ply_features_get_other. intros field' E.
    apply ply_key_inj in E as [-> _]; [|by apply (proj1 (Forall_forall _ _) Hpos),
      (list_elem_of_lookup_2 _ j)|done].
    apply Hq'. by apply (list_elem_of_lookup_2 _ j).
Qed.

(** ** The extractor on a complete record *)

Section ExtractorFacts.

Variable read_game : string → option Game.

(** What the header pass leaves under a key of its lines is a string. *)
Lemma header_pass_get_key features lines features' k :
  header_pass features lines = Ok features' →
  k ∈ header_keys lines → ∃ s, dict_get k features' = Some (VStr s).
Proof.
  intros Hp Hk.
  assert (k ∈ header_keys lines ∨ ∃ s, dict_get k features = Some (VStr s)) as H
    by (by left).
  clear Hk. revert features Hp H.
  induction lines as [|line lines IH]; intros features Hp H.
  - injection Hp as <-. destruct H as [H%elem_of_nil|H]; done.
  - rewrite header_pass_cons in Hp.
    destruct (header_key line) as [key|] eqn:Hkey.
    + rewrite (header_line_key _ _ _ Hkey) in Hp. apply (IH _ Hp).
      rewrite (header_keys_cons_Some _ _ _ Hkey) in H.
      destruct (decide (k = key)) as [->|Hne].
      * right. eexists. apply dict_get_set_eq.
      * destruct H as [[H|H]%elem_of_cons|H]; [done|by left|].
        right. by rewrite dict_get_set_ne.
    + by rewrite (header_line_raise _ _ Hkey) in Hp.
Qed.

(** A record whose header lines all have a key, and whose movetext the
    engine reads, yields a mapping: the header pass, then [Ply], then the
    per-ply loop. *)
Lemma parse_pgn_record hdrs movetext game max_ply :
  Forall tokenisable hdrs → read_game movetext = Some game →
  ∃ hf features,
    header_pass [] hdrs = Ok hf
    ∧ ply_loop (range 1 (Z.min (max_ply + 1) (end_ply game))) game
        (dict_set "Ply" (VInt (end_ply game)) hf) = Ok features
    ∧ parse_pgn read_game (hdrs ++ [movetext]) max_ply = Ok features.
Proof.
  intros Hh Hg. destruct (header_pass_ok [] hdrs Hh) as [hf Hhf].
  destruct (ply_loop_ok (range 1 (Z.min (max_ply + 1) (end_ply game))) game
              (dict_set "Ply" (VInt (end_ply game)) hf)) as [features Hf].
  { unfold range, end_ply. rewrite length_seqZ. lia. }
  exists hf, features. split; [done|]. split; [done|].
  unfold parse_pgn, PyStr.lines_init, PyStr.lines_last.
  rewrite removelast_last, last_snoc, Hhf. simpl. by rewrite Hg.
Qed.

Lemma range_pos lo hi : Forall (λ q, lo ≤ q) (range lo hi).
Proof.
  apply Forall_forall. intros q Hq. unfold range in Hq.
  apply elem_of_seqZ in Hq. lia.
Qed.

Lemma range_lookup max_ply game i :
  analyzed max_ply game i →
  range 1 (Z.min (max_ply + 1) (end_ply game)) !! Z.to_nat (i - 1) = Some i.
Proof.
  unfold analyzed, range. intros Hi. rewrite lookup_seqZ_lt by lia. f_equal. lia.
Qed.

Lemma analyzed_node max_ply game i :
  analyzed max_ply game i → is_Some (game !! Z.to_nat (i - 1)).
Proof.
  unfold analyzed, end_ply. intros Hi. apply lookup_lt_is_Some. lia.
Qed.

(** An analyzed ply's keys hold what its iteration wrote over the headers
    and [Ply]. *)
Lemma parse_pgn_analyzed hdrs game max_ply hf features i node field :
  header_pass [] hdrs = Ok hf →
  ply_loop (range 1 (Z.min (max_ply + 1) (end_ply game))) game
    (dict_set "Ply" (VInt (end_ply game)) hf) = Ok features →
  analyzed max_ply game i → game !! Z.to_nat (i - 1) = Some node →
  dict_get (ply_key i field) features
  = dict_get (ply_key i field) (ply_features i node hf).
Proof.
  intros Hhf Hf Hi Hn.
  rewrite (ply_loop_get_at _ _ _ _ _ _ _ field (range_pos 1 _) (NoDup_seqZ _ _)
             (range_lookup _ _ _ Hi) Hn Hf).
  apply ply_features_get, dict_get_set_ne, ply_key_not_Ply.
Qed.

(** The loop leaves the keys of a ply beyond the analyzed ones as the
    header pass left them. *)
Lemma parse_pgn_unanalyzed_get hdrs game max_ply hf features i field :
  header_pass [] hdrs = Ok hf →
  ply_loop (range 1 (Z.min (max_ply + 1) (end_ply game))) game
    (dict_set "Ply" (VInt (end_ply game)) hf) = Ok features →
  1 ≤ i → ¬ analyzed max_ply game i →
  dict_get (ply_key i field) features = dict_get (ply_key i field) hf.
Proof.
  intros Hhf Hf Hi Hout.
  rewrite (ply_loop_get_other _ _ _ _ _ Hf).
  - by rewrite dict_get_set_ne by apply ply_key_not_Ply.
  - intros p field' Hp E. unfold range in Hp. apply elem_of_seqZ in Hp.
    apply ply_key_inj in E as [-> _]; [|lia..].
    apply Hout. unfold analyzed. lia.
Qed.

(** C1, as the code has it. For a complete record whose game has [P]
    plies and a cap [M], the per-ply loop writes for the plies [i] in
    [1, min(M, P-1)] and for no other: every ply in that range has its
    [move] and [timespent] keys in the mapping returned, and a key named
    for a ply outside that range, whatever the field, is in the mapping
    exactly when a header line of the record has that very name as its
    key. *)
Theorem per_ply_keys_range hdrs movetext game max_ply :
  Forall tokenisable hdrs → read_game movetext = Some game →
  ∃ features,
    parse_pgn read_game (hdrs ++ [movetext]) max_ply = Ok features
    ∧ ∀ i, 1 ≤ i →
        (i ≤ Z.min max_ply (end_ply game - 1) →
           is_Some (dict_get (ply_key i "move") features)
           ∧ is_Some (dict_get (ply_key i "timespent") features))
        ∧ (Z.min max_ply (end_ply game - 1) < i →
           ∀ field, is_Some (dict_get (ply_key i field) features)
                    ↔ ply_key i field ∈ header_keys hdrs).
Proof.
  intros Hh Hg.
  destruct (parse_pgn_record hdrs movetext game max_ply Hh Hg)
    as (hf & features & Hhf & Hf & Hp).
  exists features. split; [exact Hp|]. intros i Hi. split.
  - intros Hle. assert (Ha : analyzed max_ply game i) by (unfold analyzed; lia).
    destruct (analyzed_node _ _ _ Ha) as [node Hn].
    rewrite !(parse_pgn_analyzed _ _ _ _ _ _ _ _ Hhf Hf Ha Hn).
    rewrite ply_features_move, ply_features_timespent. eauto.
  - intros Hlt field.
    assert (Hout : ¬ analyzed max_ply game i) by (unfold analyzed; lia).
    rewrite (parse_pgn_unanalyzed_get _ _ _ _ _ _ field Hhf Hf Hi Hout). split.
    + intros Hs. destruct (decide (ply_key i field ∈ header_keys hdrs)) as [|Hk]; [done|].
      rewrite (header_pass_get_other _ _ _ _ Hhf Hk) in Hs. by destruct Hs.
    + intros Hk. destruct (header_pass_get_key _ _ _ _ Hhf Hk) as [s ->]. eauto.
Qed.

(** C2, as the code has it. For every analyzed ply the loop writes the
    [eval_is_mate] key, with 1 (Python's true), when the ply's evaluation
    denotes a forced mate; for every other analyzed ply, annotated or
    not, it writes nothing under that key, and never a false: the key is
    then absent when no header line of the record has that very name as
    its key, and holds the string the header pass stored when one has. *)
Theorem eval_is_mate_by_absence hdrs movetext game max_ply i node :
  Forall tokenisable hdrs → read_game movetext = Some game →
  analyzed max_ply game i → game !! Z.to_nat (i - 1) = Some node →
  ∃ features,
    parse_pgn read_game (hdrs ++ [movetext]) max_ply = Ok features
    ∧ (denotes_mate node = true →
         dict_get (ply_key i "eval_is_mate") features = Some (VInt 1))
    ∧ (denotes_mate node = false →
         (ply_key i "eval_is_mate" ∉ header_keys hdrs →
            dict_get (ply_key i "eval_is_mate") features = None)
         ∧ (ply_key i "eval_is_mate" ∈ header_keys hdrs →
            ∃ s, dict_get (ply_key i "eval_is_mate") features = Some (VStr s))).
Proof.
  intros Hh Hg Ha Hn.
  destruct (parse_pgn_record hdrs movetext game max_ply Hh Hg)
    as (hf & features & Hhf & Hf & Hp).
  exists features. split; [exact Hp|].
  rewrite (parse_pgn_analyzed _ _ _ _ _ _ _ _ Hhf Hf Ha Hn).
  rewrite ply_features_eval_is_mate. split; intros ->; [done|]. split.
  - intros Hk. by rewrite (header_pass_get_other _ _ _ _ Hhf Hk).
  - intros Hk. exact (header_pass_get_key _ _ _ _ Hhf Hk).
Qed.

(** C3, as the code has it. For every analyzed ply the [timespent] key is
    there: it holds the clock reading when the node has a clock
    annotation, and [None] when it has none. *)
Theorem timespent_always_present hdrs movetext game max_ply i node :
  Forall tokenisable hdrs → read_game movetext = Some game →
  analyzed max_ply game i → game !! Z.to_nat (i - 1) = Some node →
  ∃ features,
    parse_pgn read_game (hdrs ++ [movetext]) max_ply = Ok features
    ∧ dict_get (ply_key i "timespent") features
      = Some (match node_clock node with Some x => VFloat x | None => VNone end).
Proof.
  intros Hh Hg Ha Hn.
  destruct (parse_pgn_record hdrs movetext game max_ply Hh Hg)
    as (hf & features & Hhf & Hf & Hp).
  exists features. split; [exact Hp|].
  rewrite (parse_pgn_analyzed _ _ _ _ _ _ _ _ Hhf Hf Ha Hn).
  apply ply_features_timespent.
Qed.

(** C10. The header pass is not total: a record with a header line that
    has no token between its first and its last character makes
    [parse_pgn] raise [IndexError], whatever the movetext and the cap. *)
Theorem header_without_token_raises hdrs movetext max_ply h :
  h ∈ hdrs → PyStr.split (PyStr.slice_1_m1 h) = [] →
  parse_pgn read_game (hdrs ++ [movetext]) max_ply = Raise IndexError.
Proof.
  intros Hin Hs. unfold parse_pgn, PyStr.lines_init.
  rewrite removelast_last, (header_pass_raise [] hdrs h Hin); [done|].
  unfold header_key. by rewrite Hs.
Qed.

End ExtractorFacts.

(** ** Tokens, [split] and [join] *)

Lemma word_cons c s : word (String c s) = true → PyStr.isspace c = false.
Proof. destruct s; simpl; intros H; [|apply andb_prop in H as [H _]];
  by apply negb_true_iff. Qed.

Lemma word_tail c c' s : word (String c (String c' s)) = true → word (String c' s) = true.
Proof. simpl. by intros [_ H]%andb_prop. Qed.

Lemma split_word w : word w = true → PyStr.split w = [w].
Proof.
  induction w as [|c w IH]; [done|]. intros Hw.
  cbn [PyStr.split]. rewrite (word_cons _ _ Hw).
  destruct w as [|c' w]; [done|].
  assert (Hw' := word_tail _ _ _ Hw).
  rewrite (IH Hw'). cbn [PyStr.starts_token]. by rewrite (word_cons _ _ Hw').
Qed.

Lemma split_word_space w s :
  word w = true → PyStr.split (w +:+ " " +:+ s) = w :: PyStr.split s.
Proof.
  induction w as [|c w IH]; [done|]. intros Hw.
  rewrite str_app_cons. cbn [PyStr.split]. rewrite (word_cons _ _ Hw).
  destruct w as [|c' w].
  - rewrite str_app_nil, str_app_cons, str_app_nil. reflexivity.
  - assert (Hw' := word_tail _ _ _ Hw).
    rewrite (IH Hw'). rewrite str_app_cons. cbn [PyStr.starts_token].
    by rewrite (word_cons _ _ Hw').
Qed.

(** Splitting undoes joining with single spaces. *)
Lemma split_join ws :
  Forall (λ w, word w = true) ws → PyStr.split (PyStr.join " " ws) = ws.
Proof.
  induction 1 as [|w ws Hw Hws IH]; [done|].
  destruct ws as [|w' ws].
  - by apply split_word.
  - change (PyStr.join " " (w :: w' :: ws))
      with (w +:+ " " +:+ PyStr.join " " (w' :: ws)).
    by rewrite (split_word_space _ _ Hw), IH.
Qed.

Lemma init_snoc s c : PyStr.init (s +:+ String c "") = s.
Proof.
  induction s as [|a s IH]; [done|].
  rewrite str_app_cons. cbn [PyStr.init]. rewrite IH.
  destruct s; reflexivity.
Qed.

Lemma slice_bracketed a s c : PyStr.slice_1_m1 (String a (s +:+ String c "")) = s.
Proof. unfold PyStr.slice_1_m1. simpl. apply init_snoc. Qed.

(** A header line whose tokens are separated by single spaces keeps the
    text after its key as it is, less its first and last character. *)
Lemma header_single_spaced key vwords :
  Forall (λ w, word w = true) (key :: vwords) →
  header_key ("[" +:+ PyStr.join " " (key :: vwords) +:+ "]") = Some key
  ∧ header_value ("[" +:+ PyStr.join " " (key :: vwords) +:+ "]")
    = PyStr.slice_1_m1 (PyStr.join " " vwords).
Proof.
  intros Hw. unfold header_key, header_value.
  rewrite str_app_cons, str_app_nil, slice_bracketed, (split_join _ Hw). done.
Qed.

(** C4, as the code has it. A header line's key is its first
    whitespace-delimited token, and the value stored under it is the
    remaining tokens joined by single spaces, less the first and the last
    character of that text: runs of whitespace inside the value come out
    as one space, and the value is the original text between its quotes
    exactly when the line's tokens are separated by single spaces. Of
    several lines with the same key the last one decides. (The key [Ply]
    and the keys of analyzed plies are written again by the later
    passes.) *)
Theorem header_value_last_wins
    (read_game : string → option Game) before h after movetext game max_ply k :
  Forall tokenisable (before ++ h :: after) → read_game movetext = Some game →
  header_key h = Some k → k ∉ header_keys after →
  k ≠ "Ply" → (∀ i field, analyzed max_ply game i → k ≠ ply_key i field) →
  ∃ features,
    parse_pgn read_game ((before ++ h :: after) ++ [movetext]) max_ply = Ok features
    ∧ dict_get k features = Some (VStr (header_value h))
    ∧ ∀ key vwords,
        Forall (λ w, word w = true) (key :: vwords) →
        h = "[" +:+ PyStr.join " " (key :: vwords) +:+ "]" →
        k = key ∧ header_value h = PyStr.slice_1_m1 (PyStr.join " " vwords).
Proof.
  intros Hh Hg Hk Hlast HPly Hply.
  destruct (parse_pgn_record read_game _ movetext game max_ply Hh Hg)
    as (hf & features & Hhf & Hf & Hp).
  exists features. split; [exact Hp|]. split.
  - rewrite (ply_loop_get_other _ _ _ _ _ Hf).
    + rewrite dict_get_set_ne by exact HPly.
      exact (header_pass_last_wins _ _ _ _ _ _ Hhf Hk Hlast).
    + intros p field Hin. apply Hply. unfold range in Hin.
      apply elem_of_seqZ in Hin. unfold analyzed. lia.
  - intros key vwords Hw ->.
    destruct (header_single_spaced key vwords Hw) as [Hkey Hval].
    split; [congruence | exact Hval].
Qed.

(** ** One name per line

    No key of a mapping has a line break in it: header keys are tokens,
    and the other keys are made of letters, digits and underscores. So the
    manifest, which ends every name with a line break, has one name per
    line. *)

Lemma one_line_app s t : one_line (s +:+ t) = one_line s && one_line t.
Proof.
  induction s as [|c s IH]; [done|].
  rewrite str_app_cons. simpl. rewrite IH. by rewrite andb_assoc.
Qed.

Lemma lines_of_line name rest :
  one_line name = true → lines_of (name +:+ newline +:+ rest) = name :: lines_of rest.
Proof.
  induction name as [|c name IH]; [done|]. simpl one_line.
  intros [Hc Hn]%andb_prop. rewrite str_app_cons. cbn [lines_of].
  apply negb_true_iff in Hc. by rewrite Hc, (IH Hn).
Qed.

Lemma lines_of_manifest names :
  Forall (λ a, one_line a = true) names → lines_of (manifest names) = names.
Proof.
  induction 1 as [|a names Ha _ IH]; [done|].
  unfold manifest in *. cbn [foldr]. by rewrite (lines_of_line _ _ Ha), IH.
Qed.

Lemma not_space_one_line c s :
  PyStr.isspace c = false → one_line s = true → one_line (String c s) = true.
Proof.
  intros Hc Hs. simpl. rewrite Hs, andb_true_r. apply negb_true_iff.
  destruct (Ascii.eqb_spec c "010") as [->|]; [discriminate Hc | done].
Qed.

Lemma split_one_line s : Forall (λ w, one_line w = true) (PyStr.split s).
Proof.
  induction s as [|c s IH]; [constructor|]. cbn [PyStr.split].
  destruct (PyStr.isspace c) eqn:Hc; [exact IH|].
  destruct (PyStr.starts_token s).
  - destruct (PyStr.split s) as [|t ts].
    + constructor; [by apply not_space_one_line | constructor].
    + apply Forall_cons in IH as [Ht Hts]. constructor; [|exact Hts].
      by apply not_space_one_line.
  - constructor; [by apply not_space_one_line | exact IH].
Qed.

Lemma one_line_uint d : one_line (NilEmpty.string_of_uint d) = true.
Proof. induction d; simpl; auto. Qed.

Lemma one_line_of_Z n : one_line (PyStr.of_Z n) = true.
Proof.
  unfold PyStr.of_Z, NilZero.string_of_int, NilZero.string_of_uint.
  destruct (Z.to_int n) as [d|d]; destruct d; simpl; auto using one_line_uint.
Qed.

Lemma one_line_ply_key i field : one_line field = true → one_line (ply_key i field) = true.
Proof.
  intros H. unfold ply_key, feature_name, player.
  rewrite !one_line_app, one_line_of_Z, H. by destruct (i mod 2 =? 1).
Qed.

Lemma clean_keys_set k v d :
  one_line k = true → clean_keys d → clean_keys (dict_set k v d).
Proof.
  unfold clean_keys, dict_keys. intros Hk.
  induction d as [|[k' v'] d IH]; simpl; intros Hd.
  - by repeat constructor.
  - apply Forall_cons in Hd as [Hk' Hd].
    destruct (decide (k = k')); simpl; constructor; auto.
Qed.

Lemma clean_keys_ply_features ply node d :
  clean_keys d → clean_keys (ply_features ply node d).
Proof.
  intros Hd. unfold ply_features.
  destruct (node_eval node) as [ev|]; [destruct (is_mate ev)|];
    repeat (apply clean_keys_set; [by apply one_line_ply_key|]); exact Hd.
Qed.

Lemma clean_keys_ply_loop plies rest d d' :
  clean_keys d → ply_loop plies rest d = Ok d' → clean_keys d'.
Proof.
  revert rest d. induction plies as [|ply plies IH]; intros rest d Hd.
  - by intros [= <-].
  - destruct rest as [|node rest]; simpl; [done|].
    apply IH. by apply clean_keys_ply_features.
Qed.

Lemma clean_keys_header_pass lines d d' :
  clean_keys d → header_pass d lines = Ok d' → clean_keys d'.
Proof.
  revert d. induction lines as [|line lines IH]; intros d Hd.
  - by intros [= <-].
  - rewrite header_pass_cons. unfold header_line.
    pose proof (split_one_line (PyStr.slice_1_m1 line)) as Hs.
    destruct (PyStr.split (PyStr.slice_1_m1 line)) as [|key rest]; [done|].
    apply Forall_cons in Hs as [Hkey _]. apply IH. by apply clean_keys_set.
Qed.

Lemma clean_keys_parse_pgn read_game lines max_ply d :
  parse_pgn read_game lines max_ply = Ok d → clean_keys d.
Proof.
  unfold parse_pgn.
  destruct (header_pass [] (PyStr.lines_init lines)) as [hf|] eqn:Hh; [|done].
  simpl. destruct (PyStr.lines_last lines) as [movetext|]; [|done].
  destruct (read_game movetext) as [game|]; [|done].
  intros Hl.
  refine (clean_keys_ply_loop _ _ _ _ _ Hl). apply clean_keys_set; [done|].
  by apply (clean_keys_header_pass (PyStr.lines_init lines) [] hf); [constructor|].
Qed.

Lemma one_line_add_columns cols row :
  Forall (λ a, one_line a = true) cols → clean_keys row →
  Forall (λ a, one_line a = true) (add_columns cols row).
Proof.
  unfold add_columns, clean_keys. revert cols.
  induction (dict_keys row) as [|k ks IH]; intros cols Hc Hr; [done|].
  apply Forall_cons in Hr as [Hk Hr]. simpl. apply IH; [|exact Hr].
  unfold add_column. destruct (decide (k ∈ cols)); [done|].
  apply Forall_app. by repeat constructor.
Qed.

Lemma one_line_columns batch :
  Forall clean_keys batch →
  Forall (λ a, one_line a = true) (columns (DataFrame_of batch)).
Proof.
  unfold DataFrame_of. simpl.
  assert (∀ cols, Forall (λ a, one_line a = true) cols → Forall clean_keys batch →
                  Forall (λ a, one_line a = true) (foldl add_columns cols batch)) as H.
  { induction batch as [|row batch IH]; intros cols Hc Hb; [done|].
    apply Forall_cons in Hb as [Hrow Hb]. simpl. apply IH; [|exact Hb].
    by apply one_line_add_columns. }
  by apply H.
Qed.

(** ** The processing loop *)

Section LoopFacts.

Variable read_game : string → option Game.
Variable cfg : Config.

Lemma run_loop_app st a b :
  run_loop read_game cfg st (a ++ b)
  = match run_loop read_game cfg st a with
    | Running st' => run_loop read_game cfg st' b
    | Aborted e w => Aborted e w
    end.
Proof.
  revert st. induction a as [|line a IH]; intros st; [done|]. simpl.
  destruct (process_line read_game cfg st line); [apply IH | done].
Qed.

(** While the counter is below the constant, a line only moves the
    counter. *)
Lemma process_line_skipped st line :
  line_num st < SKIPPED_LINES →
  process_line read_game cfg st line = Running (with_line_num st (line_num st + 1)).
Proof.
  intros H. unfold process_line.
  by rewrite (proj2 (Z.ltb_lt _ _) H).
Qed.

Lemma run_loop_skipped st lines :
  line_num st + Z.of_nat (length lines) ≤ SKIPPED_LINES →
  run_loop read_game cfg st lines
  = Running (with_line_num st (line_num st + Z.of_nat (length lines))).
Proof.
  revert st. induction lines as [|line lines IH]; intros st Hlen.
  - simpl. rewrite Z.add_0_r. by destruct st.
  - cbn [run_loop]. simpl length in Hlen.
    rewrite process_line_skipped by lia. rewrite IH by (simpl; lia).
    simpl. f_equal. unfold with_line_num. simpl. f_equal. lia.
Qed.

(** Past the constant, a line that is blank or does not start with a
    digit goes to the record buffer, or nowhere. *)
Lemma process_line_unterminated st line :
  ¬ line_num st < SKIPPED_LINES → unterminated line →
  ∃ st', process_line read_game cfg st line = Running st'
    ∧ game_batch st' = game_batch st ∧ batchnum st' = batchnum st
    ∧ schema_columns st' = schema_columns st ∧ world st' = world st
    ∧ line_num st' = line_num st
    ∧ currgame st' = currgame st ++ buffered [line].
Proof.
  intros Hskip Hline. unfold process_line, unterminated in *.
  rewrite (proj2 (Z.ltb_ge _ _)) by lia.
  unfold buffered. simpl.
  destruct (decide (PyStr.strip line = "")) as [E|E].
  - exists st. rewrite E. rewrite filter_cons_False by (intros H; by apply H).
    rewrite filter_nil, app_nil_r. done.
  - rewrite Hline. eexists. split; [done|]. simpl.
    rewrite filter_cons_True by done. done.
Qed.

Lemma buffered_cons line lines : buffered (line :: lines) = buffered [line] ++ buffered lines.
Proof.
  unfold buffered. simpl.
  destruct (decide (PyStr.strip line ≠ "")).
  - by rewrite !filter_cons_True.
  - by rewrite !filter_cons_False.
Qed.

Lemma run_loop_unterminated st lines :
  Forall unterminated lines →
  ∃ st', run_loop read_game cfg st lines = Running st'
    ∧ game_batch st' = game_batch st ∧ batchnum st' = batchnum st
    ∧ schema_columns st' = schema_columns st ∧ world st' = world st
    ∧ (¬ line_num st < SKIPPED_LINES →
       line_num st' = line_num st ∧ currgame st' = currgame st ++ buffered lines).
Proof.
  intros H. revert st. induction H as [|line lines Hline _ IH]; intros st.
  - exists st. unfold buffered. simpl. rewrite filter_nil, app_nil_r. done.
  - cbn [run_loop]. destruct (Z.lt_ge_cases (line_num st) SKIPPED_LINES) as [Hs|Hs].
    + rewrite process_line_skipped by done.
      destruct (IH (with_line_num st (line_num st + 1)))
        as (st' & -> & ? & ? & ? & ? & _).
      exists st'. repeat split; try done; lia.
    + destruct (process_line_unterminated st line ltac:(lia) Hline)
        as (st1 & -> & Hb & Hn & Hc & Hw & Hl & Hg).
      destruct (IH st1) as (st' & -> & ? & ? & ? & ? & Hrest).
      destruct Hrest as [Hl' Hg']; [lia|].
      exists st'. repeat split; try congruence.
      by rewrite Hg', Hg, (buffered_cons line lines), app_assoc.
Qed.

(** The end-of-batch branch reads neither the buffer nor the old batch. *)
Lemma end_of_batch_ext st st' batch :
  batchnum st' = batchnum st → schema_columns st' = schema_columns st →
  world st' = world st → line_num st' = line_num st →
  end_of_batch cfg st' batch = end_of_batch cfg st batch.
Proof.
  intros Hn Hc Hw Hl. unfold end_of_batch. by rewrite Hn, Hc, Hw, Hl.
Qed.

(** Past the constant, the lines of a record up to its movetext are
    buffered, and the movetext line hands the buffer to the extractor. *)
Lemma run_loop_record st hdrs movetext :
  ¬ line_num st < SKIPPED_LINES →
  Forall unterminated hdrs → first_isdigit (PyStr.strip movetext) = true →
  run_loop read_game cfg st (hdrs ++ [movetext])
  = match parse_pgn read_game
            ((currgame st ++ buffered hdrs) ++ [PyStr.strip movetext]) (max_ply cfg) with
    | Ok features => Running (end_of_batch cfg st (game_batch st ++ [features]))
    | Raise e => Aborted e (world st)
    end.
Proof.
  intros Hskip Hh Hm. rewrite run_loop_app.
  destruct (run_loop_unterminated st hdrs Hh)
    as (st' & -> & Hb & Hn & Hc & Hw & Hrest).
  destruct (Hrest Hskip) as [Hl Hg]. cbn [run_loop]. unfold process_line.
  rewrite (proj2 (Z.ltb_ge _ _)) by lia.
  destruct (decide (PyStr.strip movetext = "")) as [E|_].
  { rewrite E in Hm. discriminate. }
  rewrite Hm, Hg, Hw, Hb.
  destruct (parse_pgn _ _ _); [|done].
  by rewrite (end_of_batch_ext st st' _ Hn Hc Hw Hl).
Qed.

End LoopFacts.

(** ** Sorting an enumeration *)

Lemma elem_of_sorted_order set_order (X : gset string) a :
  enumerates set_order → a ∈ sorted (set_order X) ↔ a ∈ X.
Proof.
  intros H. unfold sorted.
  by rewrite merge_sort_Permutation, (H X), elem_of_elements.
Qed.

Lemma NoDup_sorted_order set_order (X : gset string) :
  enumerates set_order → NoDup (sorted (set_order X)).
Proof.
  intros H. unfold sorted.
  rewrite merge_sort_Permutation, (H X). apply NoDup_elements.
Qed.

(** ** The end of the run *)

Section RunFacts.

Variable read_game : string → option Game.

(** [finish] reads the batch, the batch number, the schema set and the
    world: neither the record buffer nor the line counter. *)
Lemma finish_ext set_order cfg st st' :
  game_batch st' = game_batch st → batchnum st' = batchnum st →
  schema_columns st' = schema_columns st → world st' = world st →
  finish set_order cfg st' = finish set_order cfg st.
Proof. intros Hb Hn Hc Hw. unfold finish. by rewrite Hb, Hn, Hc, Hw. Qed.

(** C7. Lines at the end of the stream that are not followed by a
    movetext line (none of them starts with a digit) are dropped without
    a trace: the run leaves the same artifacts, the same manifest and the
    same printed lines, and ends in the same way (with no exception of
    their making), as the run on the stream without them. *)
Theorem trailing_lines_dropped set_order cfg stdin trailing :
  Forall unterminated trailing →
  batch_load_files_fromconsole read_game set_order cfg (stdin ++ trailing)
  = batch_load_files_fromconsole read_game set_order cfg stdin.
Proof.
  intros Ht. unfold batch_load_files_fromconsole. rewrite run_loop_app.
  destruct (run_loop read_game cfg init_loop stdin) as [st|e w]; [|done].
  destruct (run_loop_unterminated read_game cfg st trailing Ht)
    as (st' & -> & Hb & Hn & Hc & Hw & _).
  by rewrite (finish_ext set_order cfg st st' Hb Hn Hc Hw).
Qed.

(** The trailing lines were in the record buffer when the stream ended. *)
Lemma trailing_lines_buffered cfg stdin trailing st :
  run_loop read_game cfg init_loop stdin = Running st →
  ¬ line_num st < SKIPPED_LINES → Forall unterminated trailing →
  ∃ st', run_loop read_game cfg init_loop (stdin ++ trailing) = Running st'
    ∧ currgame st' = currgame st ++ buffered trailing.
Proof.
  intros Hrun Hskip Ht. rewrite run_loop_app, Hrun.
  destruct (run_loop_unterminated read_game cfg st trailing Ht)
    as (st' & -> & _ & _ & _ & _ & Hrest).
  exists st'. split; [done|]. by apply Hrest.
Qed.

Lemma sorted_perm l1 l2 : l1 ≡ₚ l2 → sorted l1 = sorted l2.
Proof.
  intros H. unfold sorted.
  apply (Sorted_unique String.le); try apply Sorted_merge_sort; try apply _.
  by rewrite !merge_sort_Permutation.
Qed.

Lemma enumerates_empty set_order : enumerates set_order → set_order ∅ = [].
Proof.
  intros H. apply Permutation_nil_r. by rewrite (H ∅), elements_empty.
Qed.

(** C9. The skip of leading lines is the constant 50,000,000, whatever
    the configuration: on a stream of at most that many lines the loop
    only counts (the record buffer and the batch stay empty), and the run
    writes one batch artifact, of ordinal 1, with no row and no column,
    and a manifest with no name. *)
Theorem short_stream_yields_nothing set_order cfg stdin :
  enumerates set_order →
  Z.of_nat (length stdin) ≤ 50000000 →
  run_loop read_game cfg init_loop stdin
  = Running (with_line_num init_loop (Z.of_nat (length stdin)))
  ∧ batch_load_files_fromconsole read_game set_order cfg stdin
    = ({| files :=
            [(csv_path (path_of cfg) (name_of cfg) 1,
              Csv {| columns := []; rows := [] |});
             (schema_path (path_of cfg) (name_of cfg), Text "")];
          stdout := if print_progress cfg then [progress 1 0] else [] |},
       None).
Proof.
  intros Henum Hlen.
  assert (Hrun : run_loop read_game cfg init_loop stdin
                 = Running (with_line_num init_loop (Z.of_nat (length stdin)))).
  { rewrite run_loop_skipped by (simpl; unfold SKIPPED_LINES; lia). done. }
  split; [exact Hrun|].
  unfold batch_load_files_fromconsole. rewrite Hrun.
  unfold finish, export_final, with_line_num. simpl.
  rewrite (left_id_L ∅ (∪)), (enumerates_empty _ Henum).
  by destruct (print_progress cfg).
Qed.

(** C8. The run is a function of the stream and the configuration: the
    one thing the interpreter is free to choose, the order in which a set
    is enumerated, leaves no mark on what the run writes, prints or
    raises. The schema writer sorts: the names of a set come out in
    ascending order whatever order they were enumerated in, so the same
    set gives the same manifest, and the manifest has one name per line
    (its lines are the names, as long as no name has a line break in it,
    which no key of a mapping has). *)
Theorem run_deterministic order1 order2 cfg stdin :
  enumerates order1 → enumerates order2 →
  batch_load_files_fromconsole read_game order1 cfg stdin
  = batch_load_files_fromconsole read_game order2 cfg stdin
  ∧ ∀ X : gset string,
      manifest (sorted (order1 X)) = manifest (sorted (order2 X))
      ∧ Sorted String.le (sorted (order1 X))
      ∧ sorted (order1 X) ≡ₚ elements X
      ∧ ((∀ a, a ∈ X → one_line a = true) →
         lines_of (manifest (sorted (order1 X))) = sorted (order1 X)).
Proof.
  intros H1 H2.
  assert (Hs : ∀ X, sorted (order1 X) = sorted (order2 X)).
  { intros X. apply sorted_perm. by rewrite (H1 X), (H2 X). }
  split.
  - unfold batch_load_files_fromconsole.
    destruct (run_loop read_game cfg init_loop stdin) as [st|e w]; [|done].
    unfold finish. simpl. by rewrite Hs.
  - intros X. split; [by rewrite Hs|]. split; [|split].
    + apply Sorted_merge_sort. apply _.
    + unfold sorted. by rewrite merge_sort_Permutation, (H1 X).
    + intros HX. apply lines_of_manifest, Forall_forall. intros a Ha.
      apply HX. by apply (elem_of_sorted_order order1 X a H1).
Qed.

End RunFacts.

(** ** The batch accumulator's bookkeeping *)

Lemma artifacts_write_csv w path df :
  artifacts (write_file w path (Csv df)) = artifacts w ++ [(path, df)].
Proof. unfold artifacts, write_file. simpl. by rewrite omap_app. Qed.

Lemma artifacts_write_text w path s :
  artifacts (write_file w path (Text s)) = artifacts w.
Proof. unfold artifacts, write_file. simpl. by rewrite omap_app, app_nil_r. Qed.

Lemma artifacts_print w line : artifacts (print w line) = artifacts w.
Proof. reflexivity. Qed.

Lemma row_counts_snoc arts path df :
  (λ a : string * DataFrame, shape0 a.2) <$> (arts ++ [(path, df)])
  = ((λ a : string * DataFrame, shape0 a.2) <$> arts) ++ [shape0 df].
Proof. by rewrite fmap_app. Qed.

Lemma sum_snoc l n : foldr Z.add 0 (l ++ [n]) = foldr Z.add 0 l + n.
Proof. induction l as [|m l IH]; simpl; lia. Qed.

Lemma sum_constant l b :
  Forall (λ n, n = b) l → foldr Z.add 0 l = Z.of_nat (length l) * b.
Proof. induction 1 as [|n l -> _ IH]; simpl length; simpl foldr; lia. Qed.

Section AccumulatorFacts.

Variable read_game : string → option Game.
Variable cfg : Config.

Lemma accumulated_init : accumulated cfg init_loop.
Proof. unfold accumulated. simpl. repeat split; [lia | constructor]. Qed.

Lemma end_of_batch_accumulated st batch :
  accumulated cfg st → accumulated cfg (end_of_batch cfg st batch).
Proof.
  intros (Hn & Hlen & Hrows). unfold end_of_batch, export.
  destruct (Z.eqb_spec (Z.of_nat (length batch)) (batch_size cfg)) as [E|_];
    [|done].
  unfold accumulated, row_counts. simpl.
  assert (Ha : artifacts
                 (if print_progress cfg
                  then print (write_file (world st)
                                (csv_path (path_of cfg) (name_of cfg) (batchnum st))
                                (Csv (DataFrame_of batch)))
                         (progress (batchnum st) (batchnum st * batch_size cfg))
                  else write_file (world st)
                         (csv_path (path_of cfg) (name_of cfg) (batchnum st))
                         (Csv (DataFrame_of batch)))
               = artifacts (world st)
                 ++ [(csv_path (path_of cfg) (name_of cfg) (batchnum st),
                      DataFrame_of batch)]).
  { destruct (print_progress cfg); [rewrite artifacts_print|];
      apply artifacts_write_csv. }
  rewrite Ha, row_counts_snoc, length_app. simpl. repeat split; [lia..|].
  apply Forall_app. split; [exact Hrows|]. by repeat constructor.
Qed.

Lemma process_line_accumulated st line st' :
  accumulated cfg st → process_line read_game cfg st line = Running st' →
  accumulated cfg st'.
Proof.
  intros Hacc. unfold process_line.
  destruct (line_num st <? SKIPPED_LINES); [by intros [= <-]|].
  destruct (decide (PyStr.strip line = "")); [by intros [= <-]|].
  destruct (first_isdigit (PyStr.strip line)); [|by intros [= <-]].
  destruct (parse_pgn _ _ _); [|done]. intros [= <-].
  by apply end_of_batch_accumulated.
Qed.

Lemma run_loop_accumulated st stdin st' :
  accumulated cfg st → run_loop read_game cfg st stdin = Running st' →
  accumulated cfg st'.
Proof.
  revert st. induction stdin as [|line stdin IH]; intros st Hacc; simpl.
  - by intros [= <-].
  - destruct (process_line read_game cfg st line) as [st1|] eqn:E; [|done].
    apply IH. by apply (process_line_accumulated st line).
Qed.

(** C6. When the stream ends, the run emits once more, whether the batch
    at hand has rows or not: the artifacts are those of the loop and one
    more, which holds that batch under the batch number reached. That
    number is the number of artifacts, and the number of rows over all
    of them is [(batchnum - 1) * batch_size] plus the size of the last
    batch, which is the total the run reports when it prints progress. *)
Theorem final_emit_and_total set_order stdin st :
  run_loop read_game cfg init_loop stdin = Running st →
  batch_load_files_fromconsole read_game set_order cfg stdin
  = (finish set_order cfg st, None)
  ∧ artifacts (finish set_order cfg st)
    = artifacts (world st)
      ++ [(csv_path (path_of cfg) (name_of cfg) (batchnum st),
           DataFrame_of (game_batch st))]
  ∧ Z.of_nat (length (artifacts (finish set_order cfg st))) = batchnum st
  ∧ total_rows (finish set_order cfg st)
    = (batchnum st - 1) * batch_size cfg + Z.of_nat (length (game_batch st))
  ∧ (print_progress cfg = true →
     last (stdout (finish set_order cfg st))
     = Some (progress (batchnum st)
               ((batchnum st - 1) * batch_size cfg
                + Z.of_nat (length (game_batch st))))).
Proof.
  intros Hrun.
  destruct (run_loop_accumulated _ _ _ accumulated_init Hrun) as (Hn & Hlen & Hrows).
  assert (Ha : artifacts (finish set_order cfg st)
               = artifacts (world st)
                 ++ [(csv_path (path_of cfg) (name_of cfg) (batchnum st),
                      DataFrame_of (game_batch st))]).
  { unfold finish, export_final. simpl. rewrite artifacts_write_text.
    destruct (print_progress cfg); [rewrite artifacts_print|];
      apply artifacts_write_csv. }
  split; [|split; [exact Ha|split; [|split]]].
  - unfold batch_load_files_fromconsole. by rewrite Hrun.
  - rewrite Ha, length_app. simpl. lia.
  - unfold total_rows, row_counts in *. rewrite Ha, row_counts_snoc, sum_snoc.
    rewrite (sum_constant _ _ Hrows), length_fmap.
    unfold shape0. simpl. lia.
  - intros Hp. unfold finish, export_final. simpl. rewrite Hp. simpl.
    by rewrite last_snoc.
Qed.

End AccumulatorFacts.

(** ** Records through the loop *)

Section RecordFacts.

Variable read_game : string → option Game.
Variable cfg : Config.

Lemma header_or_blank_unterminated line : header_or_blank line → unterminated line.
Proof. unfold unterminated. intros [->|[H _]]; done. Qed.

Lemma buffered_app a b : buffered (a ++ b) = buffered a ++ buffered b.
Proof. unfold buffered. by rewrite fmap_app, filter_app. Qed.

Lemma buffered_movetext m :
  first_isdigit (PyStr.strip m) = true → buffered [m] = [PyStr.strip m].
Proof.
  intros H. unfold buffered. simpl. rewrite filter_cons_True; [done|].
  intros E. by rewrite E in H.
Qed.

Lemma buffered_tokenisable hdrs :
  Forall header_or_blank hdrs → Forall tokenisable (buffered hdrs).
Proof.
  induction 1 as [|l hdrs Hl _ IH]; [constructor|].
  rewrite buffered_cons. apply Forall_app. split; [|exact IH].
  unfold buffered. simpl. destruct Hl as [E|[_ Ht]].
  - rewrite filter_cons_False; [constructor|]. intros H. by apply H.
  - destruct (decide (PyStr.strip l ≠ "")).
    + rewrite filter_cons_True by done. by repeat constructor.
    + rewrite filter_cons_False by done. constructor.
Qed.

(** Past the skipped lines and with an empty buffer, a well-formed record
    becomes one mapping, appended to the batch. *)
Lemma run_loop_well_formed st record :
  ¬ line_num st < SKIPPED_LINES → currgame st = [] →
  well_formed_record read_game record →
  ∃ features,
    parse_pgn read_game (buffered record) (max_ply cfg) = Ok features
    ∧ run_loop read_game cfg st record
      = Running (end_of_batch cfg st (game_batch st ++ [features])).
Proof.
  intros Hskip Hbuf (hdrs & m & -> & Hh & Hm & [game Hg]).
  destruct (parse_pgn_record read_game (buffered hdrs) (PyStr.strip m) game
              (max_ply cfg) (buffered_tokenisable _ Hh) Hg)
    as (hf & features & _ & _ & Hp).
  exists features. rewrite buffered_app, (buffered_movetext _ Hm).
  split; [exact Hp|].
  rewrite (run_loop_record read_game cfg st hdrs m Hskip); [|
    by eapply Forall_impl; [exact Hh | apply header_or_blank_unterminated] |
    exact Hm].
  by rewrite Hbuf, app_nil_l, Hp.
Qed.

Lemma run_loop_well_formed_then st record rest :
  ¬ line_num st < SKIPPED_LINES → currgame st = [] →
  well_formed_record read_game record →
  ∃ features,
    parse_pgn read_game (buffered record) (max_ply cfg) = Ok features
    ∧ run_loop read_game cfg st (record ++ rest)
      = run_loop read_game cfg
          (end_of_batch cfg st (game_batch st ++ [features])) rest.
Proof.
  intros Hskip Hbuf Hwf.
  destruct (run_loop_well_formed st record Hskip Hbuf Hwf) as (features & Hp & Hr).
  exists features. split; [exact Hp|]. by rewrite run_loop_app, Hr.
Qed.

Lemma end_of_batch_line_num st batch :
  line_num (end_of_batch cfg st batch) = line_num st.
Proof.
  unfold end_of_batch, export.
  by destruct (Z.of_nat (length batch) =? batch_size cfg).
Qed.

Lemma end_of_batch_currgame st batch : currgame (end_of_batch cfg st batch) = [].
Proof.
  unfold end_of_batch, export.
  by destruct (Z.of_nat (length batch) =? batch_size cfg).
Qed.

(** A batch that is not full yet grows; a full one is written out. *)
Lemma end_of_batch_short st batch :
  Z.of_nat (length batch) ≠ batch_size cfg →
  end_of_batch cfg st batch
  = {| game_batch := batch; currgame := []; batchnum := batchnum st;
       schema_columns := schema_columns st; line_num := line_num st;
       world := world st |}.
Proof.
  intros H. unfold end_of_batch.
  by rewrite (proj2 (Z.eqb_neq _ _) H).
Qed.

Lemma end_of_batch_full st batch :
  Z.of_nat (length batch) = batch_size cfg →
  ∃ w,
    end_of_batch cfg st batch
    = {| game_batch := []; currgame := []; batchnum := batchnum st + 1;
         schema_columns :=
           schema_columns st ∪ list_to_set (columns (DataFrame_of batch));
         line_num := line_num st; world := w |}
    ∧ files w
      = files (world st)
        ++ [(csv_path (path_of cfg) (name_of cfg) (batchnum st),
             Csv (DataFrame_of batch))].
Proof.
  intros H. unfold end_of_batch, export.
  rewrite (proj2 (Z.eqb_eq _ _) H).
  eexists. split; [reflexivity|]. by destruct (print_progress cfg).
Qed.

End RecordFacts.

Section FiveRecords.

Variable read_game : string → option Game.
Variable set_order : gset string → list string.

Lemma files_finish cfg st :
  files (finish set_order cfg st)
  = files (world st)
    ++ [(csv_path (path_of cfg) (name_of cfg) (batchnum st),
         Csv (DataFrame_of (game_batch st)));
        (schema_path (path_of cfg) (name_of cfg),
         Text (manifest (sorted (set_order
           (schema_columns st
            ∪ list_to_set (columns (DataFrame_of (game_batch st))))))))].
Proof.
  unfold finish, export_final. simpl.
  destruct (print_progress cfg); simpl; by rewrite <- app_assoc.
Qed.

(** C5, as the code has it. Five well-formed records behind the
    50,000,000 lines the loop skips, batches of two: the run ends
    without an exception and writes three batch
    artifacts, numbered 1, 2, 3, holding the records' mappings in stream
    order with 2, 2 and 1 rows, and then the manifest, whose names are
    sorted, without repeats, and are exactly the column names of the
    three artifacts together. *)
Theorem five_records_three_batches cfg skipped r1 r2 r3 r4 r5 :
  enumerates set_order →
  batch_size cfg = 2 →
  Z.of_nat (length skipped) = 50000000 →
  Forall (well_formed_record read_game) [r1; r2; r3; r4; r5] →
  ∃ f1 f2 f3 f4 f5 w names,
    Forall2 (λ r f, parse_pgn read_game (buffered r) (max_ply cfg) = Ok f)
      [r1; r2; r3; r4; r5] [f1; f2; f3; f4; f5]
    ∧ batch_load_files_fromconsole read_game set_order cfg
        (skipped ++ r1 ++ r2 ++ r3 ++ r4 ++ r5) = (w, None)
    ∧ files w
      = [(csv_path (path_of cfg) (name_of cfg) 1, Csv (DataFrame_of [f1; f2]));
         (csv_path (path_of cfg) (name_of cfg) 2, Csv (DataFrame_of [f3; f4]));
         (csv_path (path_of cfg) (name_of cfg) 3, Csv (DataFrame_of [f5]));
         (schema_path (path_of cfg) (name_of cfg), Text (manifest names))]
    ∧ row_counts w = [2; 2; 1]
    ∧ Sorted String.le names ∧ NoDup names
    ∧ ∀ a, a ∈ names ↔ ∃ art, art ∈ artifacts w ∧ a ∈ columns art.2.
Proof.
  intros Henum Hbs Hlen Hwf.
  apply Forall_cons in Hwf as [H1 Hwf]. apply Forall_cons in Hwf as [H2 Hwf].
  apply Forall_cons in Hwf as [H3 Hwf]. apply Forall_cons in Hwf as [H4 Hwf].
  apply Forall_cons in Hwf as [H5 _].
  unfold batch_load_files_fromconsole.
  rewrite run_loop_app, run_loop_skipped
    by (simpl; unfold SKIPPED_LINES; lia).
  simpl line_num. rewrite Z.add_0_l, Hlen.
  assert (Hskip : ¬ 50000000 < SKIPPED_LINES) by (unfold SKIPPED_LINES; lia).
  (* first record: a batch of one row *)
  destruct (run_loop_well_formed_then read_game cfg
              (with_line_num init_loop 50000000) r1 (r2 ++ r3 ++ r4 ++ r5))
    as (f1 & Hp1 & ->); [exact Hskip | done | exact H1 |].
  rewrite end_of_batch_short by (rewrite Hbs; simpl; lia).
  cbn [with_line_num init_loop batchnum schema_columns line_num world game_batch app].
  (* second record: the batch is full, artifact 1 *)
  match goal with |- context [run_loop _ _ ?st (r2 ++ _)] =>
    destruct (run_loop_well_formed_then read_game cfg st r2 (r3 ++ r4 ++ r5))
      as (f2 & Hp2 & ->); [exact Hskip | done | exact H2 |] end.
  match goal with |- context [end_of_batch cfg ?st ?b] =>
    destruct (end_of_batch_full cfg st b) as (w1 & -> & Hw1);
      [by rewrite Hbs|] end.
  cbn [batchnum schema_columns line_num world game_batch app files] in *.
  (* third record: a batch of one row *)
  match goal with |- context [run_loop _ _ ?st (r3 ++ _)] =>
    destruct (run_loop_well_formed_then read_game cfg st r3 (r4 ++ r5))
      as (f3 & Hp3 & ->); [exact Hskip | done | exact H3 |] end.
  rewrite end_of_batch_short by (rewrite Hbs; simpl; lia).
  cbn [batchnum schema_columns line_num world game_batch app].
  (* fourth record: the batch is full, artifact 2 *)
  match goal with |- context [run_loop _ _ ?st (r4 ++ _)] =>
    destruct (run_loop_well_formed_then read_game cfg st r4 r5)
      as (f4 & Hp4 & ->); [exact Hskip | done | exact H4 |] end.
  match goal with |- context [end_of_batch cfg ?st ?b] =>
    destruct (end_of_batch_full cfg st b) as (w2 & -> & Hw2);
      [by rewrite Hbs|] end.
  cbn [batchnum schema_columns line_num world game_batch app files] in *.
  (* fifth record: a batch of one row, left for the end *)
  match goal with |- context [run_loop _ _ ?st r5] =>
    destruct (run_loop_well_formed read_game cfg st r5)
      as (f5 & Hp5 & ->); [exact Hskip | done | exact H5 |] end.
  rewrite end_of_batch_short by (rewrite Hbs; simpl; lia).
  cbn [batchnum schema_columns line_num world game_batch app].
  (* the end of the run: artifact 3 and the manifest *)
  match goal with |- context [finish set_order cfg ?st] =>
    pose proof (files_finish cfg st) as Hw;
    remember (finish set_order cfg st) as w eqn:Ew end.
  cbn [batchnum schema_columns world game_batch] in Hw.
  rewrite Hw2, Hw1 in Hw. simpl in Hw.
  match type of Hw with context [manifest ?l] => remember l as names eqn:En end.
  assert (Harts : artifacts w
                  = [(csv_path (path_of cfg) (name_of cfg) 1, DataFrame_of [f1; f2]);
                     (csv_path (path_of cfg) (name_of cfg) 2, DataFrame_of [f3; f4]);
                     (csv_path (path_of cfg) (name_of cfg) 3, DataFrame_of [f5])]).
  { unfold artifacts. by rewrite Hw. }
  exists f1, f2, f3, f4, f5, w, names.
  split; [by repeat constructor|]. split; [done|]. split; [exact Hw|].
  split; [unfold row_counts; by rewrite Harts|].
  split; [rewrite En; apply Sorted_merge_sort; apply _|].
  split; [rewrite En; by apply NoDup_sorted_order|].
  intros a. rewrite En, (elem_of_sorted_order _ _ _ Henum), Harts.
  rewrite !elem_of_union, !elem_of_list_to_set. split.
  - intros [[[[]%not_elem_of_empty|Ha]|Ha]|Ha];
      [exists (csv_path (path_of cfg) (name_of cfg) 1, DataFrame_of [f1; f2])
      |exists (csv_path (path_of cfg) (name_of cfg) 2, DataFrame_of [f3; f4])
      |exists (csv_path (path_of cfg) (name_of cfg) 3, DataFrame_of [f5])];
      (split; [rewrite !elem_of_cons; auto | exact Ha]).
  - intros (art & Hart & Ha). rewrite !elem_of_cons in Hart.
    destruct Hart as [->|[->|[->|[]%not_elem_of_nil]]]; auto.
Qed.

End FiveRecords.

(** ** The manifest of a run *)

Section ManifestFacts.

Variable read_game : string → option Game.
Variable cfg : Config.

Lemma clean_init : clean init_loop.
Proof. split; [constructor|]. intros a []%not_elem_of_empty. Qed.

Lemma clean_end_of_batch st batch :
  clean st → Forall clean_keys batch → clean (end_of_batch cfg st batch).
Proof.
  intros [_ Hs] Hb. unfold end_of_batch, export.
  destruct (Z.of_nat (length batch) =? batch_size cfg); [|by split].
  split; simpl; [constructor|].
  intros a [Ha|Ha%elem_of_list_to_set]%elem_of_union; [by apply Hs|].
  by apply (proj1 (Forall_forall _ _) (one_line_columns batch Hb)).
Qed.

Lemma clean_process_line st line st' :
  clean st → process_line read_game cfg st line = Running st' → clean st'.
Proof.
  intros Hst. unfold process_line.
  destruct (line_num st <? SKIPPED_LINES); [by intros [= <-]|].
  destruct (decide (PyStr.strip line = "")); [by intros [= <-]|].
  destruct (first_isdigit (PyStr.strip line)); [|by intros [= <-]].
  destruct (parse_pgn _ _ _) as [d|] eqn:Hp; [|done]. intros [= <-].
  apply clean_end_of_batch; [done|]. apply Forall_app. split; [apply Hst|].
  repeat constructor. by apply (clean_keys_parse_pgn _ _ _ _ Hp).
Qed.

Lemma clean_run_loop st stdin st' :
  clean st → run_loop read_game cfg st stdin = Running st' → clean st'.
Proof.
  revert st. induction stdin as [|line stdin IH]; intros st Hst; simpl.
  - by intros [= <-].
  - destruct (process_line read_game cfg st line) as [st1|] eqn:E; [|done].
    apply IH. by apply (clean_process_line st line).
Qed.

(** The last file of a run that ends without an exception is the
    manifest: its lines are the names of the schema set, sorted. *)
Lemma manifest_one_name_per_line set_order stdin st :
  enumerates set_order →
  run_loop read_game cfg init_loop stdin = Running st →
  ∃ names,
    last (files (finish set_order cfg st))
    = Some (schema_path (path_of cfg) (name_of cfg), Text (manifest names))
    ∧ lines_of (manifest names) = names
    ∧ Sorted String.le names.
Proof.
  intros Henum Hrun. destruct (clean_run_loop _ _ _ clean_init Hrun) as [Hb Hs].
  eexists. split; [|split].
  - unfold finish, export_final, write_file. simpl. by rewrite last_snoc.
  - apply lines_of_manifest, Forall_forall. intros a Ha.
    apply (elem_of_sorted_order _ _ _ Henum) in Ha.
    apply elem_of_union in Ha as [Ha|Ha%elem_of_list_to_set]; [by apply Hs|].
    by apply (proj1 (Forall_forall _ _) (one_line_columns _ Hb)).
  - apply Sorted_merge_sort. apply _.
Qed.

End ManifestFacts.

(** * The claims at concrete inputs *)

(** ** The claims at concrete records *)

Example parse_sample :
  parse_pgn (Sample.engine Sample.five_plies)
    [Sample.tag "Event" "Rated Blitz game"; "1. e4 e5 2. Nf3 Nc6 3. Bb5 1-0"] 2
  = Ok [("Event", VStr "Rated Blitz game"); ("Ply", VInt 5);
        ("white_move1_move", VStr "e2e4"); ("white_move1_timespent", VNone);
        ("black_move1_move", VStr "e7e5"); ("black_move1_timespent", VNone)].
Proof. vm_compute. reflexivity. Qed.

(** Five plies under the default cap of 20: plies 1 to 4 are there, ply 5
    (white's third move) is not. *)
Example five_plies_cap_20 :
  (features ← parse_pgn (Sample.engine Sample.five_plies) ["1. e4 e5 2. Nf3 Nc6 3. Bb5"] 20;
   Ok (dict_keys features))
  = Ok ["Ply"; "white_move1_move"; "white_move1_timespent";
        "black_move1_move"; "black_move1_timespent";
        "white_move2_move"; "white_move2_timespent";
        "black_move2_move"; "black_move2_timespent"].
Proof. vm_compute. reflexivity. Qed.

Example five_plies_cap_0 :
  (features ← parse_pgn (Sample.engine Sample.five_plies) ["1. e4 e5 2. Nf3 Nc6 3. Bb5"] 0;
   Ok (dict_keys features))
  = Ok ["Ply"].
Proof. vm_compute. reflexivity. Qed.

(** C1 as the spec words it fails: the game has five plies, so ply 5
    (white's third move) is outside the range under every cap, and the
    mapping has its [move] key all the same, from a header line of that
    name. *)
Lemma header_names_unanalyzed_ply :
  end_ply Sample.five_plies = 5
  ∧ ply_key 5 "move" = "white_move3_move"
  ∧ (features ← parse_pgn (Sample.engine Sample.five_plies)
                  [Sample.tag "white_move3_move" "x"; "1. e4 e5 2. Nf3 Nc6 3. Bb5 1-0"] 20;
     Ok (dict_get (ply_key 5 "move") features))
    = Ok (Some (VStr "x")).
Proof. repeat split; vm_compute; reflexivity. Qed.

Lemma per_ply_keys_range_witness :
  ∃ features,
    parse_pgn (Sample.engine Sample.five_plies)
      ([Sample.tag "white_move3_move" "x"] ++ ["1. e4 e5 2. Nf3 Nc6 3. Bb5 1-0"]) 20
    = Ok features
    ∧ ∀ i, 1 ≤ i →
        (i ≤ Z.min 20 (end_ply Sample.five_plies - 1) →
           is_Some (dict_get (ply_key i "move") features)
           ∧ is_Some (dict_get (ply_key i "timespent") features))
        ∧ (Z.min 20 (end_ply Sample.five_plies - 1) < i →
           ∀ field,
             is_Some (dict_get (ply_key i field) features)
             ↔ ply_key i field ∈ header_keys [Sample.tag "white_move3_move" "x"]).
Proof.
  apply (per_ply_keys_range (Sample.engine Sample.five_plies)
           [Sample.tag "white_move3_move" "x"] "1. e4 e5 2. Nf3 Nc6 3. Bb5 1-0"
           Sample.five_plies 20).
  - repeat constructor. vm_compute. eauto.
  - reflexivity.
Defined.

Example fools_mate_features :
  parse_pgn (Sample.engine Sample.fools_mate) ["1. f3 e5 2. g4 Qh4# 0-1"] 20
  = Ok [("Ply", VInt 4);
        ("white_move1_move", VStr "f2f3");
        ("white_move1_timespent", VFloat (S754_finite false 300 0));
        ("white_move1_evalaftermove", VInt (-50));
        ("black_move1_move", VStr "e7e5"); ("black_move1_timespent", VNone);
        ("white_move2_move", VStr "g2g4"); ("white_move2_timespent", VNone);
        ("white_move2_evalaftermove", VNone); ("white_move2_eval_is_mate", VInt 1)].
Proof. vm_compute. reflexivity. Qed.

(** C2 as the spec words it fails: the first ply of this game is
    analyzed and has no evaluation, and its [eval_is_mate] key is there,
    holding the text of a header line of that name. *)
Lemma header_names_eval_is_mate :
  denotes_mate <$> Sample.five_plies !! 0%nat = Some false
  ∧ ply_key 1 "eval_is_mate" = "white_move1_eval_is_mate"
  ∧ (features ← parse_pgn (Sample.engine Sample.five_plies)
                  [Sample.tag "white_move1_eval_is_mate" "False";
                   "1. e4 e5 2. Nf3 Nc6 3. Bb5 1-0"] 20;
     Ok (dict_get (ply_key 1 "eval_is_mate") features))
    = Ok (Some (VStr "False")).
Proof. repeat split; vm_compute; reflexivity. Qed.

Lemma eval_is_mate_by_absence_witness :
  ∃ features,
    parse_pgn (Sample.engine Sample.fools_mate)
      ([Sample.tag "Site" "https://lichess.org/abcd1234"] ++ ["1. f3 e5 2. g4 Qh4# 0-1"]) 20
    = Ok features
    ∧ (denotes_mate (Sample.mating "g2g4") = true →
         dict_get (ply_key 3 "eval_is_mate") features = Some (VInt 1))
    ∧ (denotes_mate (Sample.mating "g2g4") = false →
         (ply_key 3 "eval_is_mate"
            ∉ header_keys [Sample.tag "Site" "https://lichess.org/abcd1234"] →
          dict_get (ply_key 3 "eval_is_mate") features = None)
         ∧ (ply_key 3 "eval_is_mate"
              ∈ header_keys [Sample.tag "Site" "https://lichess.org/abcd1234"] →
            ∃ s, dict_get (ply_key 3 "eval_is_mate") features = Some (VStr s))).
Proof.
  apply (eval_is_mate_by_absence (Sample.engine Sample.fools_mate)
           [Sample.tag "Site" "https://lichess.org/abcd1234"]
           "1. f3 e5 2. g4 Qh4# 0-1" Sample.fools_mate 20 3
           (Sample.mating "g2g4")).
  - repeat constructor. vm_compute. eauto.
  - reflexivity.
  - unfold analyzed. vm_compute. split; discriminate.
  - reflexivity.
Defined.

(** C3 as the spec words it fails: the first ply of this game has no clock
    annotation, and its [timespent] key is there, holding [None]. *)
Lemma timespent_null_without_clock :
  node_clock <$> Sample.five_plies !! 0%nat = Some None
  ∧ (features ← parse_pgn (Sample.engine Sample.five_plies)
                  ["1. e4 e5 2. Nf3 Nc6 3. Bb5 1-0"] 20;
     Ok (dict_get (ply_key 1 "timespent") features))
    = Ok (Some VNone).
Proof. split; vm_compute; reflexivity. Qed.

Lemma timespent_always_present_witness :
  ∃ features,
    parse_pgn (Sample.engine Sample.fools_mate) ([] ++ ["1. f3 e5 2. g4 Qh4# 0-1"]) 20
    = Ok features
    ∧ dict_get (ply_key 2 "timespent") features = Some VNone.
Proof.
  apply (timespent_always_present (Sample.engine Sample.fools_mate)
           [] "1. f3 e5 2. g4 Qh4# 0-1" Sample.fools_mate 20 2 (Sample.node "e7e5")).
  - constructor.
  - reflexivity.
  - unfold analyzed. vm_compute. split; discriminate.
  - reflexivity.
Defined.

(** C4 as the spec words it fails: the value between the quotes has two
    spaces, the value stored has one. *)
Lemma header_whitespace_collapsed :
  spec_header_value (Sample.tag "Event" "Rated  Blitz") = "Rated  Blitz"
  ∧ (features ← parse_pgn (Sample.engine Sample.five_plies)
                  [Sample.tag "Event" "Rated  Blitz"; "1. e4 e5 2. Nf3 Nc6 3. Bb5 1-0"] 20;
     Ok (dict_get "Event" features))
    = Ok (Some (VStr "Rated Blitz")).
Proof. split; vm_compute; reflexivity. Qed.

Lemma header_value_last_wins_witness :
  ∃ features,
    parse_pgn (Sample.engine Sample.five_plies)
      (([Sample.tag "Event" "first"] ++ Sample.tag "Event" "Rated Blitz game"
          :: [Sample.tag "Site" "x"]) ++ ["1. e4 e5 2. Nf3 Nc6 3. Bb5 1-0"]) 20
    = Ok features
    ∧ dict_get "Event" features = Some (VStr "Rated Blitz game").
Proof.
  destruct (header_value_last_wins (Sample.engine Sample.five_plies)
              [Sample.tag "Event" "first"] (Sample.tag "Event" "Rated Blitz game")
              [Sample.tag "Site" "x"] "1. e4 e5 2. Nf3 Nc6 3. Bb5 1-0"
              Sample.five_plies 20 "Event") as (features & Hp & Hv & _).
  - repeat constructor; vm_compute; eauto.
  - reflexivity.
  - reflexivity.
  - vm_compute. intros H. apply list_elem_of_In in H. simpl in H.
    destruct H as [H|[]]. discriminate H.
  - discriminate.
  - intros i field _. unfold ply_key, feature_name, player.
    destruct (i mod 2 =? 1); rewrite !str_app_assoc, !str_app_cons; discriminate.
  - exists features. split; [exact Hp | exact Hv].
Defined.

Lemma header_without_token_raises_witness :
  PyStr.strip "*" = "*"
  ∧ PyStr.isdigit "*" = false
  ∧ parse_pgn (Sample.engine Sample.five_plies)
      ([Sample.tag "Event" "Rated Blitz game"; "*"] ++ ["1. e4 e5 2. Nf3 Nc6 3. Bb5 1-0"]) 20
    = Raise IndexError.
Proof.
  split; [reflexivity|]. split; [reflexivity|].
  apply (header_without_token_raises (Sample.engine Sample.five_plies)
           [Sample.tag "Event" "Rated Blitz game"; "*"]
           "1. e4 e5 2. Nf3 Nc6 3. Bb5 1-0" 20 "*").
  - apply list_elem_of_In. simpl. auto.
  - reflexivity.
Defined.

(** ** The run at concrete streams *)

Lemma enumerates_ascending : enumerates SampleRun.ascending.
Proof. intros X. reflexivity. Defined.

Lemma enumerates_descending : enumerates SampleRun.descending.
Proof. intros X. apply reverse_Permutation. Defined.

Lemma length_skipped : Z.of_nat (length SampleRun.skipped) = 50000000.
Proof.
  unfold SampleRun.skipped. rewrite length_replicate.
  apply Z2Nat.id. unfold SKIPPED_LINES. lia.
Defined.

Ltac well_formed_by hdrs :=
  exists hdrs, SampleRun.movetext;
  split; [reflexivity|]; split;
    [repeat apply Forall_cons_2; try apply Forall_nil_2;
       try (by left); right; (split; [reflexivity | by eexists])
    |split; [reflexivity | by eexists]].

Lemma sample_records_well_formed :
  Forall (well_formed_record SampleRun.engine)
    [SampleRun.r1; SampleRun.r2; SampleRun.r3; SampleRun.r4; SampleRun.r5].
Proof.
  repeat apply Forall_cons_2; [..|apply Forall_nil_2].
  - well_formed_by [Sample.tag "Event" "Rated Blitz game"; Sample.tag "Site" "a"; ""].
  - well_formed_by [""; Sample.tag "Event" "Rated Bullet game"; ""].
  - well_formed_by [""; Sample.tag "WhiteTitle" "GM"; ""].
  - well_formed_by [""; Sample.tag "Event" "Casual game"; ""].
  - well_formed_by [""; Sample.tag "BlackTitle" "IM"; ""].
Defined.

(** C5 as the spec words it fails: the five records fed alone, batches
    of two. Every line falls within the lines the loop skips, and the run
    writes a single batch artifact, without a row, and an empty
    manifest. *)
Lemma five_records_alone_one_empty_batch :
  Forall (well_formed_record SampleRun.engine)
    [SampleRun.r1; SampleRun.r2; SampleRun.r3; SampleRun.r4; SampleRun.r5]
  ∧ batch_size SampleRun.pairs = 2
  ∧ batch_load_files_fromconsole SampleRun.engine SampleRun.ascending SampleRun.pairs
      (SampleRun.r1 ++ SampleRun.r2 ++ SampleRun.r3 ++ SampleRun.r4 ++ SampleRun.r5)
    = ({| files :=
            [("./lichess_games_batch1.csv", Csv {| columns := []; rows := [] |});
             ("./lichess_games_schema.txt", Text "")];
          stdout := ["1 batches exported (0 total rows)"] |},
       None).
Proof.
  split; [exact sample_records_well_formed|]. split; [reflexivity|].
  vm_compute. reflexivity.
Qed.

Lemma five_records_three_batches_witness :
  ∃ w,
    batch_load_files_fromconsole SampleRun.engine SampleRun.ascending SampleRun.pairs
      (SampleRun.skipped ++ SampleRun.r1 ++ SampleRun.r2 ++ SampleRun.r3
         ++ SampleRun.r4 ++ SampleRun.r5) = (w, None)
    ∧ row_counts w = [2; 2; 1].
Proof.
  destruct (five_records_three_batches SampleRun.engine SampleRun.ascending
              SampleRun.pairs SampleRun.skipped
              SampleRun.r1 SampleRun.r2 SampleRun.r3 SampleRun.r4 SampleRun.r5
              enumerates_ascending eq_refl length_skipped
              sample_records_well_formed)
    as (f1 & f2 & f3 & f4 & f5 & w & names & _ & Hrun & _ & Hrows & _).
  exists w. split; [exact Hrun | exact Hrows].
Defined.

Lemma run_loop_after_r1 :
  run_loop SampleRun.engine SampleRun.pairs init_loop (SampleRun.skipped ++ SampleRun.r1)
  = Running SampleRun.after_r1.
Proof.
  rewrite run_loop_app, run_loop_skipped
    by (rewrite length_skipped; unfold SKIPPED_LINES; simpl; lia).
  rewrite length_skipped. vm_compute. reflexivity.
Defined.

Lemma final_emit_and_total_witness :
  artifacts (finish SampleRun.ascending SampleRun.pairs SampleRun.after_r1)
  = [("./lichess_games_batch1.csv", DataFrame_of (game_batch SampleRun.after_r1))]
  ∧ total_rows (finish SampleRun.ascending SampleRun.pairs SampleRun.after_r1) = 1
  ∧ last (stdout (finish SampleRun.ascending SampleRun.pairs SampleRun.after_r1))
    = Some "1 batches exported (1 total rows)".
Proof.
  destruct (final_emit_and_total SampleRun.engine SampleRun.pairs SampleRun.ascending
              (SampleRun.skipped ++ SampleRun.r1) SampleRun.after_r1 run_loop_after_r1)
    as (_ & Harts & _ & Htotal & Hprint).
  split; [exact Harts|]. split; [exact Htotal | exact (Hprint eq_refl)].
Defined.

Lemma trailing_lines_dropped_witness :
  Forall unterminated [Sample.tag "Event" "Rated Blitz game"; Sample.tag "Site" "b"]
  ∧ batch_load_files_fromconsole SampleRun.engine SampleRun.ascending SampleRun.pairs
      ((SampleRun.skipped ++ SampleRun.r1)
         ++ [Sample.tag "Event" "Rated Blitz game"; Sample.tag "Site" "b"])
    = batch_load_files_fromconsole SampleRun.engine SampleRun.ascending SampleRun.pairs
        (SampleRun.skipped ++ SampleRun.r1).
Proof.
  assert (H : Forall unterminated
                [Sample.tag "Event" "Rated Blitz game"; Sample.tag "Site" "b"])
    by (repeat constructor).
  split; [exact H|].
  exact (trailing_lines_dropped SampleRun.engine SampleRun.ascending SampleRun.pairs
           (SampleRun.skipped ++ SampleRun.r1) _ H).
Defined.

Lemma run_deterministic_witness :
  batch_load_files_fromconsole SampleRun.engine SampleRun.ascending SampleRun.pairs
    (SampleRun.skipped ++ SampleRun.r1)
  = batch_load_files_fromconsole SampleRun.engine SampleRun.descending SampleRun.pairs
      (SampleRun.skipped ++ SampleRun.r1)
  ∧ ∀ X : gset string,
      manifest (sorted (SampleRun.ascending X)) = manifest (sorted (SampleRun.descending X))
      ∧ Sorted String.le (sorted (SampleRun.ascending X))
      ∧ sorted (SampleRun.ascending X) ≡ₚ elements X
      ∧ ((∀ a, a ∈ X → one_line a = true) →
         lines_of (manifest (sorted (SampleRun.ascending X)))
         = sorted (SampleRun.ascending X)).
Proof.
  exact (run_deterministic SampleRun.engine SampleRun.ascending SampleRun.descending
           SampleRun.pairs (SampleRun.skipped ++ SampleRun.r1)
           enumerates_ascending enumerates_descending).
Defined.

Lemma short_stream_yields_nothing_witness :
  batch_load_files_fromconsole SampleRun.engine SampleRun.ascending SampleRun.pairs
    (SampleRun.r1 ++ SampleRun.r2 ++ SampleRun.r3)
  = ({| files :=
          [("./lichess_games_batch1.csv", Csv {| columns := []; rows := [] |});
           ("./lichess_games_schema.txt", Text "")];
        stdout := ["1 batches exported (0 total rows)"] |},
     None).
Proof.
  refine (proj2 (short_stream_yields_nothing SampleRun.engine SampleRun.ascending
                   SampleRun.pairs (SampleRun.r1 ++ SampleRun.r2 ++ SampleRun.r3)
                   enumerates_ascending _)).
  vm_compute. discriminate.
Defined.

(** Past the skipped lines, the five sample records in batches of two:
    the artifacts' names and row counts, the manifest, the progress
    lines. *)
Example sample_run_after_skip :
  match run_loop SampleRun.engine SampleRun.pairs (with_line_num init_loop 50000000)
          (SampleRun.r1 ++ SampleRun.r2 ++ SampleRun.r3 ++ SampleRun.r4 ++ SampleRun.r5)
  with
  | Running st =>
      let w := finish SampleRun.ascending SampleRun.pairs st in
      Some ((λ a, (a.1, shape0 a.2)) <$> artifacts w, manifests w, stdout w)
  | Aborted _ _ => None
  end
  = Some ([("./lichess_games_batch1.csv", 2); ("./lichess_games_batch2.csv", 2);
           ("./lichess_games_batch3.csv", 1)],
          [("./lichess_games_schema.txt",
            manifest ["BlackTitle"; "Event"; "Ply"; "Site"; "WhiteTitle";
                      "white_move1_move"; "white_move1_timespent"])],
          ["1 batches exported (2 total rows)"; "2 batches exported (4 total rows)";
           "3 batches exported (5 total rows)"]).
Proof. vm_compute. reflexivity. Qed.

(** Past the skipped lines, the line [*] is buffered as a header line, and
    the movetext line that follows ends the run with the [IndexError]. *)
Example star_line_aborts_run :
  run_loop SampleRun.engine SampleRun.pairs (with_line_num init_loop 50000000)
    ["*"; SampleRun.movetext]
  = Aborted IndexError {| files := []; stdout := [] |}.
Proof. vm_compute. reflexivity. Qed.

(** * Further properties *)

(** ** The keys of a mapping *)

Lemma elem_of_dict_keys_set a k v d :
  a ∈ dict_keys (dict_set k v d) ↔ a = k ∨ a ∈ dict_keys d.
Proof.
  unfold dict_keys. induction d as [|[k' v'] d IH]; simpl.
  - rewrite list_elem_of_singleton, elem_of_nil. tauto.
  - destruct (decide (k = k')) as [->|Hne]; simpl; rewrite !elem_of_cons.
    + tauto.
    + rewrite IH. tauto.
Qed.

Lemma elem_of_keys_ply_features a ply node d :
  a ∈ dict_keys (ply_features ply node d)
  ↔ a ∈ dict_keys d ∨ a ∈ node_keys ply node.
Proof.
  unfold ply_features, node_keys.
  destruct (node_eval node) as [ev|]; [destruct (is_mate ev)|];
    rewrite ?elem_of_dict_keys_set, ?elem_of_app, ?elem_of_cons, ?elem_of_nil;
    tauto.
Qed.

Lemma elem_of_keys_ply_loop a plies rest d d' :
  ply_loop plies rest d = Ok d' →
  a ∈ dict_keys d'
  ↔ a ∈ dict_keys d
    ∨ ∃ j p node, plies !! j = Some p ∧ rest !! j = Some node ∧ a ∈ node_keys p node.
Proof.
  revert rest d. induction plies as [|ply plies IH]; intros rest d.
  - intros [= ->]. split; [by left|]. intros [H|(j & p & node & Hp & _)]; done.
  - destruct rest as [|n0 rest]; simpl; [done|]. intros H.
    rewrite (IH _ _ H), elem_of_keys_ply_features. split.
    + intros [[Ha|Ha]|(j & p & node & Hp & Hn & Ha)]; [by left| |].
      * right. by exists 0%nat, ply, n0.
      * right. by exists (S j), p, node.
    + intros [Ha|(j & p & node & Hp & Hn & Ha)]; [by left; left|].
      destruct j as [|j]; simpl in Hp, Hn.
      * injection Hp as ->. injection Hn as ->. by left; right.
      * right. by exists j, p, node.
Qed.

Lemma elem_of_keys_header_pass a lines d d' :
  header_pass d lines = Ok d' →
  a ∈ dict_keys d' ↔ a ∈ dict_keys d ∨ a ∈ header_keys lines.
Proof.
  revert d. induction lines as [|line lines IH]; intros d.
  - intros [= ->]. unfold header_keys. simpl. rewrite elem_of_nil. tauto.
  - rewrite header_pass_cons. destruct (header_key line) as [key|] eqn:Hk.
    + rewrite (header_line_key _ _ _ Hk), (header_keys_cons_Some _ _ _ Hk).
      intros H. rewrite (IH _ H), elem_of_dict_keys_set, elem_of_cons. tauto.
    + by rewrite header_line_raise.
Qed.

(** ** What the extractor returns *)

Lemma header_pass_outcome d lines :
  match header_pass d lines with
  | Ok _ => Forall tokenisable lines
  | Raise e => e = IndexError ∧ Exists (λ h, header_key h = None) lines
  end.
Proof.
  revert d. induction lines as [|line lines IH]; intros d; [constructor|].
  rewrite header_pass_cons. destruct (header_key line) as [key|] eqn:Hk.
  - rewrite (header_line_key _ _ _ Hk). specialize (IH (dict_set key (VStr (header_value line)) d)).
    destruct (header_pass _ lines).
    + constructor; [by exists key | exact IH].
    + destruct IH as [-> IH]. split; [done | by apply Exists_cons_tl].
  - rewrite (header_line_raise _ _ Hk). split; [done | by apply Exists_cons_hd].
Qed.

Lemma ply_features_evalaftermove ply node g :
  dict_get (ply_key ply "evalaftermove") (ply_features ply node g)
  = match node_eval node with
    | Some ev => Some (score_value (white_score ev))
    | None => dict_get (ply_key ply "evalaftermove") g
    end.
Proof.
  unfold ply_features.
  destruct (node_eval node) as [ev|]; [destruct (is_mate ev)|];
    repeat (rewrite dict_get_set_ne by field_ne);
    reflexivity || apply dict_get_set_eq.
Qed.

Section ExtractorOutput.

Variable read_game : string → option Game.

(** X1. The keys of the mapping [parse_pgn] returns are the keys of the
    record's header lines, [Ply], and the keys written for the nodes of
    the analyzed plies ([move] and [timespent], [evalaftermove] when the
    node has an evaluation, [eval_is_mate] when that is a mate): these
    and no other. *)
Theorem output_keys_exact hdrs movetext game max_ply :
  Forall tokenisable hdrs → read_game movetext = Some game →
  ∃ features,
    parse_pgn read_game (hdrs ++ [movetext]) max_ply = Ok features
    ∧ ∀ a, a ∈ dict_keys features
           ↔ a ∈ header_keys hdrs ∨ a = "Ply"
             ∨ ∃ i node, analyzed max_ply game i
                         ∧ game !! Z.to_nat (i - 1) = Some node
                         ∧ a ∈ node_keys i node.
Proof.
  intros Hh Hg.
  destruct (parse_pgn_record read_game hdrs movetext game max_ply Hh Hg)
    as (hf & features & Hhf & Hf & Hp).
  exists features. split; [exact Hp|]. intros a.
  rewrite (elem_of_keys_ply_loop _ _ _ _ _ Hf), elem_of_dict_keys_set,
    (elem_of_keys_header_pass _ _ _ _ Hhf).
  unfold dict_keys at 1. simpl. rewrite elem_of_nil. split.
  - intros [[->|[[]|Ha]]|(j & p & node & Hj & Hn & Ha)]; [by right; left|by left|].
    right; right. unfold range in Hj. apply lookup_seqZ in Hj as [-> Hj].
    exists (1 + Z.of_nat j), node. split; [unfold analyzed; lia|].
    split; [|exact Ha]. by replace (Z.to_nat (1 + Z.of_nat j - 1)) with j by lia.
  - intros [Ha|[->|(i & node & Hi & Hn & Ha)]]; [by left; right; right|by left; left|].
    right. exists (Z.to_nat (i - 1)), i, node.
    split; [by apply range_lookup|]. by split.
Qed.

(** X2. How [parse_pgn] ends is decided by the record alone. It returns a
    mapping when every header line has a key and the engine reads the
    movetext; it raises [IndexError] when there is no line at all or a
    header line has no key; it raises [AttributeError] when the header
    lines are fine and the engine finds no game in the last line. The
    per-ply loop itself never fails: it never steps past the last node
    of the mainline. *)
Theorem parse_pgn_outcomes lines max_ply :
  match parse_pgn read_game lines max_ply with
  | Ok _ =>
      Forall tokenisable (PyStr.lines_init lines)
      ∧ ∃ movetext game,
          PyStr.lines_last lines = Some movetext ∧ read_game movetext = Some game
  | Raise IndexError =>
      lines = [] ∨ Exists (λ h, header_key h = None) (PyStr.lines_init lines)
  | Raise AttributeError =>
      Forall tokenisable (PyStr.lines_init lines)
      ∧ ∃ movetext,
          PyStr.lines_last lines = Some movetext ∧ read_game movetext = None
  end.
Proof.
  unfold parse_pgn.
  pose proof (header_pass_outcome [] (PyStr.lines_init lines)) as Hh.
  destruct (header_pass [] (PyStr.lines_init lines)) as [hf|e]; simpl.
  - unfold PyStr.lines_last. destruct (last lines) as [movetext|] eqn:Hl.
    + destruct (read_game movetext) as [game|] eqn:Hg.
      * destruct (ply_loop_ok (range 1 (Z.min (max_ply + 1) (end_ply game))) game
                    (dict_set "Ply" (VInt (end_ply game)) hf)) as [features ->].
        { unfold range, end_ply. rewrite length_seqZ. lia. }
        split; [exact Hh|]. by exists movetext, game.
      * split; [exact Hh|]. by exists movetext.
    + left. by apply last_None.
  - destruct Hh as [-> Hh]. by right.
Qed.

(** X3. [Ply] holds the number of plies of the mainline, as an int,
    whatever the header lines say: a header line named [Ply] is
    overwritten. *)
Theorem ply_is_mainline_length hdrs movetext game max_ply :
  Forall tokenisable hdrs → read_game movetext = Some game →
  ∃ features,
    parse_pgn read_game (hdrs ++ [movetext]) max_ply = Ok features
    ∧ dict_get "Ply" features = Some (VInt (Z.of_nat (length game))).
Proof.
  intros Hh Hg.
  destruct (parse_pgn_record read_game hdrs movetext game max_ply Hh Hg)
    as (hf & features & Hhf & Hf & Hp).
  exists features. split; [exact Hp|].
  rewrite (ply_loop_get_other _ _ _ _ _ Hf).
  - apply dict_get_set_eq.
  - intros p field _ E. symmetry in E. by apply ply_key_not_Ply in E.
Qed.

(** X4. The keys line up with the mainline: the [move] key of an analyzed
    ply [i] holds the move of the [i]-th node in UCI notation, also when
    a header line carries that very name. *)
Theorem move_of_ith_node hdrs movetext game max_ply i node :
  Forall tokenisable hdrs → read_game movetext = Some game →
  analyzed max_ply game i → game !! Z.to_nat (i - 1) = Some node →
  ∃ features,
    parse_pgn read_game (hdrs ++ [movetext]) max_ply = Ok features
    ∧ dict_get (ply_key i "move") features = Some (VStr (move_uci node)).
Proof.
  intros Hh Hg Ha Hn.
  destruct (parse_pgn_record read_game hdrs movetext game max_ply Hh Hg)
    as (hf & features & Hhf & Hf & Hp).
  exists features. split; [exact Hp|].
  rewrite (parse_pgn_analyzed _ _ _ _ _ _ _ _ Hhf Hf Ha Hn).
  apply ply_features_move.
Qed.

(** X5. The [evalaftermove] key of an analyzed ply is there exactly when
    its node has an evaluation annotation: it then holds the score from
    white's side, an int, or [None] when the score has no centipawn value
    (a mate); with no annotation the loop writes nothing under it. *)
Theorem evalaftermove_when_annotated hdrs movetext game max_ply i node :
  Forall tokenisable hdrs → read_game movetext = Some game →
  analyzed max_ply game i → game !! Z.to_nat (i - 1) = Some node →
  ∃ features,
    parse_pgn read_game (hdrs ++ [movetext]) max_ply = Ok features
    ∧ (∀ ev, node_eval node = Some ev →
         dict_get (ply_key i "evalaftermove") features
         = Some (match white_score ev with Some cp => VInt cp | None => VNone end))
    ∧ (node_eval node = None →
         ply_key i "evalaftermove" ∉ header_keys hdrs →
         dict_get (ply_key i "evalaftermove") features = None).
Proof.
  intros Hh Hg Ha Hn.
  destruct (parse_pgn_record read_game hdrs movetext game max_ply Hh Hg)
    as (hf & features & Hhf & Hf & Hp).
  exists features. split; [exact Hp|].
  rewrite (parse_pgn_analyzed _ _ _ _ _ _ _ _ Hhf Hf Ha Hn).
  rewrite ply_features_evalaftermove. split.
  - by intros ev ->.
  - intros -> Hk. by rewrite (header_pass_get_other _ _ _ _ Hhf Hk).
Qed.

End ExtractorOutput.

(** X6. The names [f'{player}_move{movenum}_{field}'] keep the plies
    apart: what the loop writes for one ply leaves every key of every
    other ply, whatever its field, as it was. *)
Theorem plies_do_not_overwrite i j field node features :
  1 ≤ i → 1 ≤ j → i ≠ j →
  dict_get (ply_key i field) (ply_features j node features)
  = dict_get (ply_key i field) features.
Proof.
  intros Hi Hj Hne. apply ply_features_get_other. intros field' E.
  by apply ply_key_inj in E as [-> _].
Qed.

(** ** Rows in, rows out *)

Lemma artifacts_finish set_order cfg st :
  artifacts (finish set_order cfg st)
  = artifacts (world st)
    ++ [(csv_path (path_of cfg) (name_of cfg) (batchnum st),
         DataFrame_of (game_batch st))].
Proof.
  unfold finish, export_final. simpl. rewrite artifacts_write_text.
  destruct (print_progress cfg); [rewrite artifacts_print|];
    apply artifacts_write_csv.
Qed.

Lemma artifacts_end_of_batch cfg st batch :
  artifacts (world (end_of_batch cfg st batch))
  = artifacts (world st)
    ++ (if Z.of_nat (length batch) =? batch_size cfg
        then [(csv_path (path_of cfg) (name_of cfg) (batchnum st), DataFrame_of batch)]
        else []).
Proof.
  unfold end_of_batch, export.
  destruct (Z.of_nat (length batch) =? batch_size cfg); simpl;
    [|by rewrite app_nil_r].
  destruct (print_progress cfg); [rewrite artifacts_print|];
    apply artifacts_write_csv.
Qed.

Lemma rows_written_snoc arts path df :
  concat ((λ a : string * DataFrame, rows a.2) <$> (arts ++ [(path, df)]))
  = concat ((λ a : string * DataFrame, rows a.2) <$> arts) ++ rows df.
Proof. rewrite fmap_app, concat_app. simpl. by rewrite app_nil_r. Qed.

Lemma rows_end_of_batch cfg st batch :
  rows_written (world (end_of_batch cfg st batch)) ++ game_batch (end_of_batch cfg st batch)
  = rows_written (world st) ++ batch.
Proof.
  unfold rows_written. rewrite artifacts_end_of_batch. unfold end_of_batch, export.
  destruct (Z.of_nat (length batch) =? batch_size cfg); simpl.
  - by rewrite rows_written_snoc, app_nil_r.
  - by rewrite app_nil_r.
Qed.

Lemma rows_finish set_order cfg st :
  rows_written (finish set_order cfg st) = rows_written (world st) ++ game_batch st.
Proof. unfold rows_written. by rewrite artifacts_finish, rows_written_snoc. Qed.

Section Conservation.

Variable read_game : string → option Game.
Variable cfg : Config.

(** Past the skipped lines the loop extracts the records one by one and
    keeps every mapping, in the batch or in an artifact. *)
Lemma run_loop_records st lines :
  ¬ line_num st < SKIPPED_LINES →
  match extract_all read_game (max_ply cfg) (records (currgame st) lines) with
  | Ok fs =>
      ∃ st', run_loop read_game cfg st lines = Running st'
             ∧ rows_written (world st') ++ game_batch st'
               = (rows_written (world st) ++ game_batch st) ++ fs
  | Raise e => ∃ w, run_loop read_game cfg st lines = Aborted e w
  end.
Proof.
  revert st. induction lines as [|line lines IH]; intros st Hskip.
  - simpl. exists st. by rewrite app_nil_r.
  - cbn [records run_loop]. unfold process_line.
    rewrite (proj2 (Z.ltb_ge _ _)) by lia.
    destruct (decide (PyStr.strip line = "")) as [E|E]; [by apply IH|].
    destruct (first_isdigit (PyStr.strip line)).
    + cbn [extract_all].
      destruct (parse_pgn read_game (currgame st ++ [PyStr.strip line]) (max_ply cfg))
        as [f|e]; simpl; [|by eexists].
      specialize (IH (end_of_batch cfg st (game_batch st ++ [f]))).
      rewrite end_of_batch_line_num, end_of_batch_currgame in IH.
      specialize (IH Hskip).
      destruct (extract_all read_game (max_ply cfg) (records [] lines)) as [fs|e];
        simpl; [|exact IH].
      destruct IH as (st' & Hrun & Hrows). exists st'. split; [exact Hrun|].
      by rewrite Hrows, rows_end_of_batch, <- !app_assoc.
    + exact (IH {| game_batch := game_batch st;
                   currgame := currgame st ++ [PyStr.strip line];
                   batchnum := batchnum st; schema_columns := schema_columns st;
                   line_num := line_num st; world := world st |} Hskip).
Qed.

(** The loop at the end of the skipped lines. *)
Lemma run_loop_behind_skip stdin :
  run_loop read_game cfg init_loop stdin
  = if decide (Z.of_nat (length stdin) ≤ SKIPPED_LINES)
    then Running (with_line_num init_loop (Z.of_nat (length stdin)))
    else run_loop read_game cfg (with_line_num init_loop SKIPPED_LINES)
           (behind_skip stdin).
Proof.
  unfold behind_skip.
  assert (Hn : Z.of_nat (Z.to_nat SKIPPED_LINES) = SKIPPED_LINES)
    by (apply Z2Nat.id; unfold SKIPPED_LINES; lia).
  generalize dependent (Z.to_nat SKIPPED_LINES). intros n Hn.
  destruct (decide (Z.of_nat (length stdin) ≤ SKIPPED_LINES)) as [Hle|Hgt].
  - by rewrite run_loop_skipped by (simpl; lia).
  - rewrite <- (take_drop n stdin) at 1. rewrite run_loop_app.
    rewrite run_loop_skipped by (rewrite length_take; simpl; lia).
    simpl. do 2 f_equal. rewrite length_take. lia.
Qed.

(** X7. No row is lost, repeated or moved: when every record behind the
    skipped lines extracts, the run ends without an exception and the
    rows of its artifacts, read in the order the artifacts were written,
    are the mappings of the records in stream order, one per movetext
    line. When a record fails, the run ends with the exception of the
    first one that does. *)
Theorem rows_are_the_records set_order stdin :
  match extract_all read_game (max_ply cfg) (records [] (behind_skip stdin)) with
  | Ok fs =>
      ∃ w, batch_load_files_fromconsole read_game set_order cfg stdin = (w, None)
           ∧ rows_written w = fs
  | Raise e =>
      ∃ w, batch_load_files_fromconsole read_game set_order cfg stdin = (w, Some e)
  end.
Proof.
  unfold batch_load_files_fromconsole. rewrite run_loop_behind_skip.
  destruct (decide (Z.of_nat (length stdin) ≤ SKIPPED_LINES)) as [Hle|Hgt].
  - unfold behind_skip. rewrite drop_ge by lia. simpl.
    eexists. split; [reflexivity|]. by rewrite rows_finish.
  - pose proof (run_loop_records (with_line_num init_loop SKIPPED_LINES)
                  (behind_skip stdin)) as H.
    simpl in H. specialize (H ltac:(lia)).
    destruct (extract_all read_game (max_ply cfg) (records [] (behind_skip stdin)))
      as [fs|e].
    + destruct H as (st' & -> & Hrows). eexists. split; [reflexivity|].
      by rewrite rows_finish, Hrows.
    + destruct H as (w & ->). by exists w.
Qed.

End Conservation.

(** ** Invariants of the loop, in general *)

Section LoopInduction.

Variable read_game : string → option Game.
Variable cfg : Config.

(** What holds at the start, does not depend on the record buffer or the
    line counter, and is kept by the end-of-batch branch, holds after
    every line. *)
Variable P : Loop → Prop.
Hypothesis P_ext : ∀ st st',
  P st → game_batch st' = game_batch st → batchnum st' = batchnum st →
  schema_columns st' = schema_columns st → world st' = world st → P st'.
Hypothesis P_batch : ∀ st f, P st → P (end_of_batch cfg st (game_batch st ++ [f])).

Lemma process_line_keeps st line st' :
  P st → process_line read_game cfg st line = Running st' → P st'.
Proof.
  intros Hst. unfold process_line.
  destruct (line_num st <? SKIPPED_LINES);
    [intros [= <-]; by apply (P_ext st)|].
  destruct (decide (PyStr.strip line = "")); [by intros [= <-]|].
  destruct (first_isdigit (PyStr.strip line));
    [|intros [= <-]; by apply (P_ext st)].
  destruct (parse_pgn _ _ _); [|done]. intros [= <-]. by apply P_batch.
Qed.

Lemma run_loop_keeps st stdin st' :
  P st → run_loop read_game cfg st stdin = Running st' → P st'.
Proof.
  revert st. induction stdin as [|line stdin IH]; intros st Hst; simpl.
  - by intros [= <-].
  - destruct (process_line read_game cfg st line) as [st1|] eqn:E; [|done].
    apply IH. by apply (process_line_keeps st line).
Qed.


End LoopInduction.

Lemma batch_load_success read_game set_order cfg stdin w :
  batch_load_files_fromconsole read_game set_order cfg stdin = (w, None) →
  ∃ st, run_loop read_game cfg init_loop stdin = Running st
        ∧ w = finish set_order cfg st.
Proof.
  unfold batch_load_files_fromconsole.
  destruct (run_loop read_game cfg init_loop stdin) as [st|e w']; [|done].
  intros [= <-]. by exists st.
Qed.


(** ** The sizes of the batches *)

Section BatchSizes.

Variable read_game : string → option Game.
Variable cfg : Config.

Lemma below_capacity_run st stdin st' :
  below_capacity cfg st → run_loop read_game cfg st stdin = Running st' →
  below_capacity cfg st'.
Proof.
  apply run_loop_keeps.
  - unfold below_capacity. intros s s' H Hb _ _ _. by rewrite Hb.
  - unfold below_capacity, end_of_batch, export. intros s f H.
    destruct (Z.eqb_spec (Z.of_nat (length (game_batch s ++ [f]))) (batch_size cfg))
      as [E|E]; simpl in *; rewrite length_app in *; simpl in *; lia.
Qed.

Lemma row_counts_finish set_order st :
  row_counts (finish set_order cfg st)
  = row_counts (world st) ++ [Z.of_nat (length (game_batch st))].
Proof. unfold row_counts. by rewrite artifacts_finish, row_counts_snoc. Qed.

(** X8. With a batch size of at least one, a run that ends without an
    exception splits its [n] rows as division does: [n / batch_size]
    artifacts of [batch_size] rows each, then one last artifact with the
    [n mod batch_size] rows left, none when [batch_size] divides [n]. *)
Theorem batches_divide_the_rows set_order stdin w :
  1 ≤ batch_size cfg →
  batch_load_files_fromconsole read_game set_order cfg stdin = (w, None) →
  row_counts w
  = replicate (Z.to_nat (total_rows w / batch_size cfg)) (batch_size cfg)
    ++ [total_rows w mod batch_size cfg].
Proof.
  intros Hbs (st & Hrun & ->)%batch_load_success.
  destruct (run_loop_accumulated _ _ _ _ _ (accumulated_init cfg) Hrun)
    as (_ & _ & Hrows).
  assert (Hcap : below_capacity cfg st).
  { apply (below_capacity_run init_loop stdin); [|exact Hrun].
    unfold below_capacity. simpl. lia. }
  unfold below_capacity in Hcap. unfold total_rows.
  rewrite row_counts_finish, sum_snoc, (sum_constant _ _ Hrows).
  set (k := length (row_counts (world st))).
  set (r := Z.of_nat (length (game_batch st))) in *.
  assert (Hq : (Z.of_nat k * batch_size cfg + r) / batch_size cfg = Z.of_nat k).
  { rewrite Z.div_add_l by lia. rewrite Z.div_small by lia. lia. }
  assert (Hr : (Z.of_nat k * batch_size cfg + r) mod batch_size cfg = r).
  { rewrite Z.add_comm, Z.mod_add by lia. apply Z.mod_small. lia. }
  rewrite Hq, Hr, Nat2Z.id. f_equal. symmetry.
  apply replicate_as_Forall_2; [done|].
  eapply Forall_impl; [exact Hrows|]. by intros n ->.
Qed.

Lemma unbatched_run st stdin st' :
  batch_size cfg ≤ 0 →
  unbatched st → run_loop read_game cfg st stdin = Running st' → unbatched st'.
Proof.
  intros Hbs. apply run_loop_keeps.
  - unfold unbatched. intros s s' [Hn Hw] _ Hn' _ Hw'. by rewrite Hn', Hw'.
  - unfold unbatched, end_of_batch. intros s f H.
    destruct (Z.eqb_spec (Z.of_nat (length (game_batch s ++ [f]))) (batch_size cfg))
      as [E|E]; [|exact H].
    rewrite length_app in E. simpl in E. lia.
Qed.

(** X9. With a batch size of zero or less no batch is ever full: a run
    that ends without an exception writes a single artifact, number 1,
    which holds every row. *)
Theorem nonpositive_batch_size_one_artifact set_order stdin w :
  batch_size cfg ≤ 0 →
  batch_load_files_fromconsole read_game set_order cfg stdin = (w, None) →
  artifacts w
  = [(csv_path (path_of cfg) (name_of cfg) 1, DataFrame_of (rows_written w))].
Proof.
  intros Hbs (st & Hrun & ->)%batch_load_success.
  destruct (unbatched_run init_loop stdin st Hbs) as [Hn Hw]; [done|exact Hrun|].
  rewrite rows_finish, artifacts_finish. unfold rows_written.
  by rewrite Hw, Hn.
Qed.

End BatchSizes.

(** ** The files of a run *)

Lemma str_length_app s t : String.length (s +:+ t) = (String.length s + String.length t)%nat.
Proof. induction s as [|c s IH]; [done|]. rewrite str_app_cons. simpl. by rewrite IH. Qed.

Lemma str_app_inj_r s t u : s +:+ u = t +:+ u → s = t.
Proof.
  revert t. induction s as [|a s IH]; intros [|b t] H.
  - done.
  - apply (f_equal String.length) in H. rewrite str_app_nil, str_app_cons in H.
    simpl in H. rewrite str_length_app in H. lia.
  - apply (f_equal String.length) in H. rewrite str_app_nil, str_app_cons in H.
    simpl in H. rewrite str_length_app in H. lia.
  - rewrite !str_app_cons in H. injection H as -> H. f_equal. by apply IH.
Qed.

Lemma csv_path_inj export_path export_name a b :
  csv_path export_path export_name a = csv_path export_path export_name b → a = b.
Proof.
  unfold csv_path. intros H.
  do 4 apply (inj (String.app _)) in H.
  by apply str_app_inj_r, of_Z_inj in H.
Qed.

Lemma csv_path_not_schema_path export_path export_name a :
  csv_path export_path export_name a ≠ schema_path export_path export_name.
Proof.
  unfold csv_path, schema_path. intros H.
  do 3 apply (inj (String.app _)) in H.
  rewrite !str_app_cons in H. discriminate H.
Qed.

Lemma seqZ_snoc k : 0 ≤ k → seqZ 1 (k + 1) = seqZ 1 k ++ [k + 1].
Proof.
  intros Hk. rewrite seqZ_app by lia. f_equal.
  rewrite seqZ_cons by lia. rewrite seqZ_nil by lia. f_equal. lia.
Qed.

Lemma files_end_of_batch cfg st batch :
  files (world (end_of_batch cfg st batch))
  = files (world st)
    ++ (if Z.of_nat (length batch) =? batch_size cfg
        then [(csv_path (path_of cfg) (name_of cfg) (batchnum st),
               Csv (DataFrame_of batch))]
        else []).
Proof.
  unfold end_of_batch, export.
  destruct (Z.of_nat (length batch) =? batch_size cfg); simpl;
    [|by rewrite app_nil_r].
  by destruct (print_progress cfg).
Qed.

Lemma manifests_app fs gs :
  omap (λ f : string * content,
          match f.2 with Text s => Some (f.1, s) | Csv _ => None end) (fs ++ gs)
  = omap (λ f : string * content,
            match f.2 with Text s => Some (f.1, s) | Csv _ => None end) fs
    ++ omap (λ f : string * content,
               match f.2 with Text s => Some (f.1, s) | Csv _ => None end) gs.
Proof. apply omap_app. Qed.

Section Files.

Variable read_game : string → option Game.
Variable cfg : Config.

Lemma numbered_init : numbered cfg init_loop.
Proof. unfold numbered. simpl. split; [lia|]. by split. Qed.

Lemma numbered_ext st st' :
  numbered cfg st → batchnum st' = batchnum st → world st' = world st →
  numbered cfg st'.
Proof. unfold numbered. intros H Hn Hw. by rewrite Hn, Hw. Qed.

Lemma numbered_end_of_batch st batch :
  numbered cfg st → numbered cfg (end_of_batch cfg st batch).
Proof.
  intros (Hn & Hp & Hm). unfold numbered, paths, manifests in *.
  rewrite files_end_of_batch. unfold end_of_batch, export.
  destruct (Z.of_nat (length batch) =? batch_size cfg); simpl.
  - split; [lia|]. split.
    + rewrite fmap_app, Hp. simpl.
      replace (batchnum st + 1 - 1) with (batchnum st - 1 + 1) by lia.
      rewrite seqZ_snoc by lia. rewrite fmap_app. simpl. do 3 f_equal. lia.
    + by rewrite manifests_app, Hm.
  - rewrite app_nil_r. done.
Qed.

Lemma numbered_run stdin st :
  run_loop read_game cfg init_loop stdin = Running st → numbered cfg st.
Proof.
  apply (run_loop_keeps read_game cfg (numbered cfg)); [| |apply numbered_init].
  - intros s s' H _ Hn _ Hw. by apply (numbered_ext s).
  - intros s f. apply numbered_end_of_batch.
Qed.

(** X10. A run that ends without an exception writes the batch files
    numbered 1, 2, ... without a gap, then the manifest, and no two of
    these writes go to the same path: no file of the run overwrites
    another. *)
Theorem files_numbered_and_distinct set_order stdin w :
  batch_load_files_fromconsole read_game set_order cfg stdin = (w, None) →
  ∃ k, 1 ≤ k
       ∧ paths w
         = (csv_path (path_of cfg) (name_of cfg) <$> seqZ 1 k)
           ++ [schema_path (path_of cfg) (name_of cfg)]
       ∧ NoDup (paths w).
Proof.
  intros (st & Hrun & ->)%batch_load_success.
  destruct (numbered_run stdin st Hrun) as (Hn & Hp & _).
  assert (Hpaths : paths (finish set_order cfg st)
                   = (csv_path (path_of cfg) (name_of cfg) <$> seqZ 1 (batchnum st))
                     ++ [schema_path (path_of cfg) (name_of cfg)]).
  { unfold paths in *. rewrite files_finish, fmap_app, Hp. simpl.
    replace (batchnum st) with (batchnum st - 1 + 1) at 3 by lia.
    rewrite seqZ_snoc by lia. rewrite fmap_app, <- app_assoc. simpl.
    do 3 f_equal. lia. }
  exists (batchnum st). split; [exact Hn|]. split; [exact Hpaths|].
  rewrite Hpaths. apply NoDup_app. split; [|split].
  - apply NoDup_fmap_2_strong; [|apply NoDup_seqZ].
    intros a b _ _. apply csv_path_inj.
  - intros x (a & -> & _)%list_elem_of_fmap [E|[]%elem_of_nil]%elem_of_cons.
    by apply csv_path_not_schema_path in E.
  - apply NoDup_singleton.
Qed.


Lemma reported_run stdin st :
  run_loop read_game cfg init_loop stdin = Running st → reported cfg st.
Proof.
  apply (run_loop_keeps read_game cfg (reported cfg)).
  - unfold reported. intros s s' H _ Hn _ Hw. by rewrite Hn, Hw.
  - unfold reported, end_of_batch, export. intros s f [Hn Hs].
    destruct (Z.of_nat (length (game_batch s ++ [f])) =? batch_size cfg);
      simpl; [|done].
    split; [lia|]. destruct (print_progress cfg); simpl; [|done].
    replace (batchnum s + 1 - 1) with (batchnum s - 1 + 1) by lia.
    rewrite seqZ_snoc by lia. rewrite fmap_app, Hs. simpl.
    by replace (batchnum s - 1 + 1) with (batchnum s) by lia.
  - unfold reported. simpl. split; [lia|]. by destruct (print_progress cfg).
Qed.

(** X12. What a run that ends without an exception prints: nothing when
    progress is off; otherwise one line per artifact, in order, each
    with the number of the artifact and the rows written up to and
    including it, so that the last line carries the total of the run. *)
Theorem progress_lines set_order stdin w :
  batch_load_files_fromconsole read_game set_order cfg stdin = (w, None) →
  stdout w
  = if print_progress cfg
    then ((λ k, progress k (k * batch_size cfg))
            <$> seqZ 1 (Z.of_nat (length (artifacts w)) - 1))
         ++ [progress (Z.of_nat (length (artifacts w))) (total_rows w)]
    else [].
Proof.
  intros (st & Hrun & ->)%batch_load_success.
  destruct (reported_run stdin st Hrun) as [Hn Hs].
  destruct (run_loop_accumulated _ _ _ _ _ (accumulated_init cfg) Hrun)
    as (_ & Hlen & Hrows).
  assert (Hk : Z.of_nat (length (artifacts (finish set_order cfg st))) = batchnum st).
  { rewrite artifacts_finish, length_app. simpl. lia. }
  assert (Ht : total_rows (finish set_order cfg st)
               = (batchnum st - 1) * batch_size cfg
                 + Z.of_nat (length (game_batch st))).
  { unfold total_rows. rewrite row_counts_finish, sum_snoc, (sum_constant _ _ Hrows).
    unfold row_counts. rewrite length_fmap. lia. }
  rewrite Hk, Ht. unfold finish, export_final. simpl.
  destruct (print_progress cfg); simpl; [|exact Hs].
  by rewrite Hs.
Qed.

End Files.

(** ** The manifest and the rows *)

Lemma elem_of_add_columns a cols row :
  a ∈ add_columns cols row ↔ a ∈ cols ∨ a ∈ dict_keys row.
Proof.
  unfold add_columns. revert cols.
  induction (dict_keys row) as [|k ks IH]; intros cols; simpl.
  - rewrite elem_of_nil. tauto.
  - rewrite IH, elem_of_cons. unfold add_column.
    destruct (decide (k ∈ cols)) as [Hk|Hk].
    + split; [tauto|]. intros [?|[->|?]]; tauto.
    + rewrite elem_of_app, list_elem_of_singleton. tauto.
Qed.

Lemma elem_of_columns a batch :
  a ∈ columns (DataFrame_of batch) ↔ ∃ row, row ∈ batch ∧ a ∈ dict_keys row.
Proof.
  unfold DataFrame_of. simpl.
  assert (∀ cols, a ∈ foldl add_columns cols batch
                  ↔ a ∈ cols ∨ ∃ row, row ∈ batch ∧ a ∈ dict_keys row) as H.
  { induction batch as [|r batch IH]; intros cols; simpl.
    - split; [by left|]. intros [?|(row & []%elem_of_nil & _)]. done.
    - rewrite IH, elem_of_add_columns. split.
      + intros [[?|?]|(row & ? & ?)]; [by left| |].
        * right. exists r. split; [left|done].
        * right. exists row. split; [by right|done].
      + intros [?|(row & [->|?]%elem_of_cons & ?)]; [by left; left|by left; right|].
        right. by exists row. }
  rewrite H, elem_of_nil. tauto.
Qed.

Lemma elem_of_rows_snoc row arts path df :
  row ∈ concat ((λ a : string * DataFrame, rows a.2) <$> (arts ++ [(path, df)]))
  ↔ row ∈ concat ((λ a : string * DataFrame, rows a.2) <$> arts) ∨ row ∈ rows df.
Proof. by rewrite rows_written_snoc, elem_of_app. Qed.

Lemma schema_end_of_batch cfg st batch :
  schema_columns (end_of_batch cfg st batch)
  = if Z.of_nat (length batch) =? batch_size cfg
    then schema_columns st ∪ list_to_set (columns (DataFrame_of batch))
    else schema_columns st.
Proof.
  unfold end_of_batch, export.
  by destruct (Z.of_nat (length batch) =? batch_size cfg).
Qed.

Section ManifestOfRows.

Variable read_game : string → option Game.
Variable cfg : Config.

Lemma schema_of_rows_run stdin st :
  run_loop read_game cfg init_loop stdin = Running st → schema_of_rows st.
Proof.
  apply (run_loop_keeps read_game cfg schema_of_rows).
  - unfold schema_of_rows. intros s s' H _ _ Hc Hw a. by rewrite Hc, Hw.
  - unfold schema_of_rows, rows_written. intros s f H a.
    rewrite artifacts_end_of_batch, schema_end_of_batch.
    destruct (Z.of_nat (length (game_batch s ++ [f])) =? batch_size cfg).
    + rewrite elem_of_union, elem_of_list_to_set, elem_of_columns, (H a). split.
      * intros [(row & Hr & Ha)|(row & Hr & Ha)]; exists row;
          (split; [apply elem_of_rows_snoc; auto | exact Ha]).
      * intros (row & [Hr|Hr]%elem_of_rows_snoc & Ha); [left|right]; by exists row.
    + rewrite app_nil_r. apply H.
  - intros a. unfold rows_written. simpl. split; [by intros []%not_elem_of_empty|].
    by intros (row & []%elem_of_nil & _).
Qed.

(** X13. The manifest of a run that ends without an exception lists the
    keys of the rows of its artifacts, each once, sorted, one per line:
    a name is in it exactly when some row of some artifact has it as a
    key. *)
Theorem manifest_lists_the_keys set_order stdin w :
  enumerates set_order →
  batch_load_files_fromconsole read_game set_order cfg stdin = (w, None) →
  ∃ names,
    last (files w)
    = Some (schema_path (path_of cfg) (name_of cfg), Text (manifest names))
    ∧ lines_of (manifest names) = names
    ∧ Sorted String.le names ∧ NoDup names
    ∧ ∀ a, a ∈ names ↔ ∃ row, row ∈ rows_written w ∧ a ∈ dict_keys row.
Proof.
  intros Henum (st & Hrun & ->)%batch_load_success.
  pose proof (schema_of_rows_run stdin st Hrun) as Hs.
  destruct (clean_run_loop read_game cfg _ _ _ clean_init Hrun) as [Hb Hc].
  exists (sorted (set_order (schema_columns st
            ∪ list_to_set (columns (DataFrame_of (game_batch st)))))).
  split; [|split; [|split; [|split]]].
  - by rewrite files_finish, last_app.
  - apply lines_of_manifest, Forall_forall. intros a Ha.
    apply (elem_of_sorted_order _ _ _ Henum) in Ha.
    apply elem_of_union in Ha as [Ha|Ha%elem_of_list_to_set]; [by apply Hc|].
    by apply (proj1 (Forall_forall _ _) (one_line_columns _ Hb)).
  - apply Sorted_merge_sort. apply _.
  - by apply NoDup_sorted_order.
  - intros a. rewrite (elem_of_sorted_order _ _ _ Henum), elem_of_union,
      elem_of_list_to_set, elem_of_columns, (Hs a), rows_finish. split.
    + intros [(row & Hr & Ha)|(row & Hr & Ha)]; exists row;
        (split; [apply elem_of_app; auto | exact Ha]).
    + intros (row & [Hr|Hr]%elem_of_app & Ha); [left|right]; by exists row.
Qed.

End ManifestOfRows.

(** ** Lines the result does not depend on *)

Section Lines.

Variable read_game : string → option Game.
Variable cfg : Config.

Lemma process_line_line_num st line st' :
  process_line read_game cfg st line = Running st' →
  line_num st'
  = if line_num st <? SKIPPED_LINES then line_num st + 1 else line_num st.
Proof.
  unfold process_line.
  destruct (line_num st <? SKIPPED_LINES); [by intros [= <-]|].
  destruct (decide (PyStr.strip line = "")); [by intros [= <-]|].
  destruct (first_isdigit (PyStr.strip line)); [|by intros [= <-]].
  destruct (parse_pgn _ _ _); [|done]. intros [= <-].
  apply end_of_batch_line_num.
Qed.

(** The line counter stops at the constant. *)
Lemma run_loop_line_num st stdin st' :
  line_num st ≤ SKIPPED_LINES →
  run_loop read_game cfg st stdin = Running st' →
  line_num st' = Z.min (line_num st + Z.of_nat (length stdin)) SKIPPED_LINES.
Proof.
  revert st. induction stdin as [|line stdin IH]; intros st Hle; simpl run_loop.
  - intros [= <-]. simpl. lia.
  - destruct (process_line read_game cfg st line) as [st1|] eqn:E; [|done].
    apply process_line_line_num in E. intros H.
    destruct (Z.ltb_spec (line_num st) SKIPPED_LINES).
    + rewrite (IH st1) by (done || lia). rewrite E. simpl length. lia.
    + rewrite (IH st1) by (done || lia). rewrite E. simpl length. lia.
Qed.

(** X14. Behind the skipped lines a blank line counts for nothing: with
    or without it the run writes, prints and raises the same. (Among
    the skipped lines it counts as a line.) *)
Theorem blank_line_ignored set_order before blank after :
  SKIPPED_LINES ≤ Z.of_nat (length before) → PyStr.strip blank = "" →
  batch_load_files_fromconsole read_game set_order cfg (before ++ blank :: after)
  = batch_load_files_fromconsole read_game set_order cfg (before ++ after).
Proof.
  intros Hlen Hblank. unfold batch_load_files_fromconsole. rewrite !run_loop_app.
  destruct (run_loop read_game cfg init_loop before) as [st|e w] eqn:Hrun; [|done].
  apply run_loop_line_num in Hrun; [|simpl; unfold SKIPPED_LINES; lia].
  simpl in Hrun. cbn [run_loop]. unfold process_line at 1.
  rewrite (proj2 (Z.ltb_ge _ _)) by lia.
  by destruct (decide (PyStr.strip blank = "")).
Qed.

(** X15. Of the lines the loop skips only the number matters: two
    streams that differ only in what their first lines say, at most
    50,000,000 of them, give the same run. *)
Theorem skipped_lines_only_count set_order skipped skipped' rest :
  length skipped = length skipped' →
  Z.of_nat (length skipped) ≤ 50000000 →
  batch_load_files_fromconsole read_game set_order cfg (skipped ++ rest)
  = batch_load_files_fromconsole read_game set_order cfg (skipped' ++ rest).
Proof.
  intros Hlen Hle. unfold batch_load_files_fromconsole.
  rewrite !run_loop_app.
  assert (Hle' : Z.of_nat (length skipped') ≤ 50000000) by lia.
  rewrite (run_loop_skipped read_game cfg init_loop skipped)
    by (simpl; unfold SKIPPED_LINES; lia).
  rewrite (run_loop_skipped read_game cfg init_loop skipped')
    by (simpl; unfold SKIPPED_LINES; lia).
  by rewrite Hlen.
Qed.

End Lines.

(** ** The cells of the reconciliation stage *)

Section Cells.

Import SchemaBuilding.

Lemma find_bounds c s : -1 ≤ find c s < Z.of_nat (String.length s).
Proof.
  induction s as [|a s IH]; simpl; [lia|].
  destruct (Ascii.eqb a c); [lia|].
  destruct (Z.ltb_spec (find c s) 0); lia.
Qed.

Lemma find_cons_ne c a s :
  Ascii.eqb a c = false → find c (String a s) = if find c s <? 0 then -1 else find c s + 1.
Proof. simpl. by intros ->. Qed.

(** X16. The date cells come out with every dot turned into a dash and
    nothing else changed: the same length, no dot left, and a second
    pass (or a pass over a date without dots) changes nothing. *)
Theorem fix_date_leaves_no_dot date :
  String.length (fix_date date) = String.length date
  ∧ find "." (fix_date date) = -1
  ∧ fix_date (fix_date date) = fix_date date
  ∧ (find "." date = -1 → fix_date date = date).
Proof.
  unfold fix_date. induction date as [|c date (IH1 & IH2 & IH3 & IH4)]; [done|].
  simpl. destruct (Ascii.eqb_spec c ".") as [->|Hc].
  - simpl. rewrite IH1, IH2, IH3. done.
  - simpl. rewrite (proj2 (Ascii.eqb_neq _ _) Hc). simpl.
    rewrite IH1, IH2, IH3. repeat split; try done.
    destruct (Z.ltb_spec (find "." date) 0) as [Hlt|]; [|lia].
    intros _. rewrite IH4; [done|]. pose proof (find_bounds "." date). lia.
Qed.

(** A string splits at the first occurrence of a character. *)
Lemma find_splits c s :
  0 ≤ find c s →
  take (Z.to_nat (find c s)) s +:+ String c (drop (Z.to_nat (find c s + 1)) s) = s
  ∧ find c (take (Z.to_nat (find c s)) s) = -1.
Proof.
  induction s as [|a s IH]; [simpl; lia|].
  destruct (Ascii.eqb_spec a c) as [->|Hne].
  - simpl. rewrite Ascii.eqb_refl. done.
  - rewrite (find_cons_ne _ _ _ (proj2 (Ascii.eqb_neq _ _) Hne)).
    destruct (Z.ltb_spec (find c s) 0) as [Hlt|Hge]; [lia|]. intros _.
    destruct (IH Hge) as [IH1 IH2].
    replace (Z.to_nat (find c s + 1)) with (S (Z.to_nat (find c s))) by lia.
    replace (Z.to_nat (find c s + 1 + 1)) with (S (Z.to_nat (find c s + 1))) by lia.
    cbn [take drop]. rewrite str_app_cons. split.
    + f_equal. exact IH1.
    + rewrite (find_cons_ne _ _ _ (proj2 (Ascii.eqb_neq _ _) Hne)), IH2. done.
Qed.

Lemma bound_inside s i :
  0 ≤ i ≤ Z.of_nat (String.length s) → bound s i = Z.to_nat i.
Proof.
  intros Hi. unfold bound. destruct (Z.ltb_spec i 0); [lia|]. f_equal. lia.
Qed.

(** X17. A time control with a plus sign splits at the first one: the
    text before it is the cell of [StartTime], the text after it the
    cell of [Increment], the start time has no plus sign in it, and the
    two cells with a plus sign between them are the time control. *)
Theorem time_control_splits_at_plus time :
  0 ≤ find "+" time →
  start_time time +:+ "+" +:+ increment time = time
  ∧ find "+" (start_time time) = -1.
Proof.
  intros Hf. unfold start_time, increment, slice_to, slice_from.
  pose proof (find_bounds "+" time).
  rewrite !bound_inside by lia. exact (find_splits "+" time Hf).
Qed.

Lemma take_init s : take (String.length s - 1) s = PyStr.init s.
Proof.
  induction s as [|a s IH]; [done|]. simpl.
  destruct s as [|b s]; [done|]. simpl in *.
  rewrite Nat.sub_0_r in IH. by rewrite IH.
Qed.

(** X18. A time control without a plus sign (Lichess writes [-] for a
    game without a clock) is not split: [find] answers -1, so the cell
    of [StartTime] is the time control less its last character, and the
    cell of [Increment] is the whole time control. *)
Theorem time_control_without_plus time :
  find "+" time = -1 →
  start_time time = PyStr.init time ∧ increment time = time.
Proof.
  intros Hf. unfold start_time, increment, slice_to, slice_from, bound.
  rewrite Hf. change (-1 <? 0) with true. change (-1 + 1 <? 0) with false.
  cbv iota. split.
  - rewrite <- take_init. f_equal. lia.
  - replace (Z.to_nat (Z.min (-1 + 1) (Z.of_nat (String.length time)))) with 0%nat
      by lia.
    by destruct time.
Qed.

Lemma split_on_shape sep s :
  match split_on sep s with
  | [] => False
  | [x] => s = x ∧ find sep x = -1
  | _ :: xs =>
      ∃ name dir, last xs = Some name ∧ find sep name = -1
                  ∧ s = dir +:+ String sep name
  end.
Proof.
  induction s as [|c s IH]; [done|]. cbn [split_on].
  destruct (Ascii.eqb_spec c sep) as [->|Hne].
  - destruct (split_on sep s) as [|x [|y xs]]; [done| |].
    + destruct IH as [-> Hx]. by exists x, "".
    + destruct IH as (name & dir & Hl & Hn & ->).
      exists name, (String sep dir). by rewrite last_cons_cons.
  - destruct (split_on sep s) as [|x [|y xs]]; [done| |].
    + destruct IH as [-> Hx]. split; [done|].
      by rewrite (find_cons_ne _ _ _ (proj2 (Ascii.eqb_neq _ _) Hne)), Hx.
    + destruct IH as (name & dir & Hl & Hn & ->).
      by exists name, (String c dir).
Qed.

(** X19. The file name [main] writes a reconciled batch under is the
    path of the batch file after its last slash, or the whole path when
    it has none: it is always there and has no slash in it, so every
    file lands directly in the output directory. *)
Theorem filename_is_last_component csv_path :
  ∃ name,
    filename csv_path = Ok name
    ∧ find "/" name = -1
    ∧ (csv_path = name ∨ ∃ dir, csv_path = dir +:+ "/" +:+ name).
Proof.
  unfold filename. pose proof (split_on_shape "/" csv_path) as H.
  destruct (split_on "/" csv_path) as [|x [|y xs]]; [done| |].
  - destruct H as [-> Hx]. exists x. split; [done|]. split; [done|by left].
  - destruct H as (name & dir & Hl & Hn & ->). exists name.
    rewrite last_cons_cons, Hl. split; [done|]. split; [done|].
    right. by exists dir.
Qed.

End Cells.

(** ** The upload schema against the other stages *)

Section Schema.

Import SchemaBuilding.

Lemma schema_names_NoDup : NoDup Upload.SCHEMA.*1.
Proof. apply (bool_decide_unpack _). vm_compute. exact I. Qed.

Lemma schema_names_sorted : sorted Upload.SCHEMA.*1 = Upload.SCHEMA.*1.
Proof. vm_compute. reflexivity. Qed.

Lemma elem_of_union_columns (acc : gset string) file_columns a :
  a ∈ foldl (λ acc cols, acc ∪ list_to_set cols) acc file_columns
  ↔ a ∈ acc ∨ ∃ cols, cols ∈ file_columns ∧ a ∈ cols.
Proof.
  revert acc. induction file_columns as [|cols file_columns IH]; intros acc.
  - simpl. split; [by left|]. intros [H|(cols & H%elem_of_nil & _)]; done.
  - cbn [foldl]. rewrite IH, elem_of_union, elem_of_list_to_set. split.
    + intros [[H|H]|(cols' & H & Ha)]; [by left| |].
      * right. exists cols. split; [left|done].
      * right. exists cols'. split; [by right|done].
    + intros [H|(cols' & [->|H]%elem_of_cons & Ha)]; [by left; left|by left; right|].
      right. by exists cols'.
Qed.

(** X24. Every reconciled file gets the same columns in the same order,
    whatever order the batch files are read in and whatever columns each
    of them has: the three engineered names and every column of every
    batch file, each once, sorted. *)
Theorem all_cols_exact order file_columns :
  enumerates order →
  Sorted String.le (all_cols order file_columns)
  ∧ NoDup (all_cols order file_columns)
  ∧ ∀ a, a ∈ all_cols order file_columns
         ↔ a ∈ engineered_columns ∨ ∃ cols, cols ∈ file_columns ∧ a ∈ cols.
Proof.
  intros Henum. unfold all_cols. split; [|split].
  - apply Sorted_merge_sort. apply _.
  - by apply NoDup_sorted_order.
  - intros a.
    by rewrite (elem_of_sorted_order _ _ _ Henum), elem_of_union_columns,
      elem_of_list_to_set.
Qed.

(** X20. The upload declares its columns in the order the reconciliation
    stage writes them: when the columns of the batch files and the three
    engineered names are together the names of [SCHEMA], the columns of
    every reconciled file are the names of [SCHEMA] in the order of the
    table, whatever order the set of columns is enumerated in. *)
Theorem schema_is_in_written_order order file_columns :
  enumerates order →
  (∀ a, a ∈ Upload.SCHEMA.*1
        ↔ a ∈ engineered_columns ∨ ∃ cols, cols ∈ file_columns ∧ a ∈ cols) →
  all_cols order file_columns = Upload.SCHEMA.*1.
Proof.
  intros Henum Hcols. unfold all_cols.
  assert (foldl (λ acc cols, acc ∪ list_to_set cols)
            (list_to_set engineered_columns) file_columns
          = (list_to_set Upload.SCHEMA.*1 : gset string)) as ->.
  { apply set_eq. intros a.
    by rewrite elem_of_union_columns, !elem_of_list_to_set, Hcols. }
  rewrite <- schema_names_sorted at 2. apply sorted_perm.
  rewrite (Henum _). apply elements_list_to_set, schema_names_NoDup.
Qed.

Lemma schema_covers_plies :
  Forall (λ i,
    (ply_key i "move", "STRING") ∈ Upload.SCHEMA
    ∧ (ply_key i "timespent", "FLOAT64") ∈ Upload.SCHEMA
    ∧ (ply_key i "evalaftermove", "FLOAT64") ∈ Upload.SCHEMA
    ∧ (3 ≤ i → (ply_key i "eval_is_mate", "BOOL") ∈ Upload.SCHEMA))
    (seqZ 1 20).
Proof. apply (bool_decide_unpack _). vm_compute. exact I. Qed.

(** X21. The upload schema fits the extractor's default cap of 20 plies:
    for each of the plies 1 to 20 it has the [move] key as a string and
    the [timespent] and [evalaftermove] keys as floats, and from ply 3
    on the [eval_is_mate] key as a boolean. The [eval_is_mate] keys of
    plies 1 and 2, the first move of either side, have no entry. *)
Theorem schema_covers_default_cap i :
  1 ≤ i ≤ 20 →
  (ply_key i "move", "STRING") ∈ Upload.SCHEMA
  ∧ (ply_key i "timespent", "FLOAT64") ∈ Upload.SCHEMA
  ∧ (ply_key i "evalaftermove", "FLOAT64") ∈ Upload.SCHEMA
  ∧ (3 ≤ i → (ply_key i "eval_is_mate", "BOOL") ∈ Upload.SCHEMA)
  ∧ (ply_key 1 "eval_is_mate" ∉ Upload.SCHEMA.*1)
  ∧ (ply_key 2 "eval_is_mate" ∉ Upload.SCHEMA.*1).
Proof.
  intros Hi.
  assert (Hin : i ∈ seqZ 1 20) by (apply elem_of_seqZ; lia).
  destruct (proj1 (Forall_forall _ _) schema_covers_plies i Hin)
    as (Hm & Ht & He & Hb).
  repeat (split; [assumption|]).
  split; apply (bool_decide_unpack _); vm_compute; exact I.
Qed.

Lemma schema_casts :
  Forall (λ entry : string * string,
    match cast_of entry.1 with
    | ToNumeric => entry.2 = "FLOAT64"
    | ToBool => entry.2 = "BOOL"
    | NoCast => entry.2 ≠ "BOOL"
    end) Upload.SCHEMA.
Proof. repeat constructor; vm_compute; congruence. Qed.

(** X22. The casts of the reconciliation stage agree with the upload
    schema: a column of [SCHEMA] that [update_feature_types] makes
    numeric is declared a float, and the columns it makes boolean are
    exactly those declared boolean. *)
Theorem schema_agrees_with_casts name type :
  (name, type) ∈ Upload.SCHEMA →
  (cast_of name = ToNumeric → type = "FLOAT64")
  ∧ (cast_of name = ToBool ↔ type = "BOOL").
Proof.
  intros Hin.
  pose proof (proj1 (Forall_forall _ _) schema_casts _ Hin) as H. simpl in H.
  destruct (cast_of name); subst; repeat split; try done.
Qed.

End Schema.

(** ** The casts of the per-ply columns *)

Section Casts.

Import SchemaBuilding.

Lemma digit_not_eqb a c :
  bool_decide (is_Some (Ascii.is_nat c)) = true →
  bool_decide (is_Some (Ascii.is_nat a)) = false → Ascii.eqb a c = false.
Proof.
  intros Hc Ha. destruct (Ascii.eqb_spec a c) as [->|]; [congruence|done].
Qed.

(** A needle without digits does not reach into a run of digits. *)
Lemma prefix_before_digits needle pre c rest :
  no_digit needle = true → bool_decide (is_Some (Ascii.is_nat c)) = true →
  prefix needle (pre +:+ String c rest) = prefix needle pre.
Proof.
  intros Hn Hc. revert pre. induction needle as [|a needle IH]; intros pre.
  - by destruct pre.
  - simpl in Hn. apply andb_prop in Hn as [Ha Hn]. apply negb_true_iff in Ha.
    destruct pre as [|b pre].
    + rewrite str_app_nil. simpl. by rewrite (digit_not_eqb _ _ Hc Ha).
    + rewrite str_app_cons. simpl. by rewrite (IH Hn).
Qed.

Lemma contains_digits needle digits post :
  no_digit needle = true → needle ≠ "" → all_digits digits = true →
  contains needle (digits +:+ post) = contains needle post.
Proof.
  intros Hn Hne Hd. induction digits as [|c digits IH]; [done|].
  simpl in Hd. apply andb_prop in Hd as [Hc Hd].
  rewrite str_app_cons. cbn [contains]. rewrite (IH Hd).
  destruct needle as [|a needle]; [done|].
  simpl in Hn. apply andb_prop in Hn as [Ha _]. apply negb_true_iff in Ha.
  simpl. by rewrite (digit_not_eqb _ _ Hc Ha).
Qed.

Lemma contains_around_digits needle pre digits post :
  no_digit needle = true → needle ≠ "" →
  all_digits digits = true → digits ≠ "" →
  contains needle (pre +:+ digits +:+ post)
  = contains needle pre || contains needle post.
Proof.
  intros Hn Hne Hd Hdne. destruct digits as [|c digits]; [done|].
  pose proof Hd as Hd'. simpl in Hd'. apply andb_prop in Hd' as [Hc _].
  induction pre as [|b pre IH].
  - rewrite str_app_nil, (contains_digits _ _ _ Hn Hne Hd).
    destruct needle; [done|]. done.
  - rewrite str_app_cons. cbn [contains]. rewrite IH.
    rewrite <- str_app_cons, str_app_cons at 1.
    change (String b (pre +:+ String c digits +:+ post))
      with (String b pre +:+ String c (digits +:+ post)).
    rewrite (prefix_before_digits _ _ _ _ Hn Hc). by rewrite orb_assoc.
Qed.

Lemma of_Z_nonempty n : PyStr.of_Z n ≠ "".
Proof.
  unfold PyStr.of_Z, NilZero.string_of_int, NilZero.string_of_uint.
  destruct (Z.to_int n) as [d|d]; destruct d; discriminate.
Qed.

Lemma contains_ply_key needle i field :
  1 ≤ i → no_digit needle = true → needle ≠ "" →
  contains needle (ply_key i field)
  = contains needle (player i +:+ "_move") || contains needle ("_" +:+ field).
Proof.
  intros Hi Hn Hne. unfold ply_key, feature_name.
  rewrite !str_app_assoc, <- (str_app_assoc (player i) "_move").
  apply contains_around_digits; [done|done| |apply of_Z_nonempty].
  by apply all_digits_of_Z, movenum_nonneg.
Qed.

(** X23. [update_feature_types] casts the per-ply columns by their field,
    whatever the ply: [timespent] and [evalaftermove] columns become
    numeric, [eval_is_mate] columns boolean, and [move] columns are left
    as they are. *)
Theorem per_ply_columns_cast_by_field i :
  1 ≤ i →
  cast_of (ply_key i "move") = NoCast
  ∧ cast_of (ply_key i "timespent") = ToNumeric
  ∧ cast_of (ply_key i "evalaftermove") = ToNumeric
  ∧ cast_of (ply_key i "eval_is_mate") = ToBool.
Proof.
  intros Hi. unfold cast_of.
  rewrite !(contains_ply_key _ i _ Hi) by done.
  unfold player. by destruct (i mod 2 =? 1).
Qed.

End Casts.

(** * The further properties at concrete inputs *)

Lemma output_keys_exact_witness :
  ∃ features,
    parse_pgn (Sample.engine Sample.fools_mate)
      ([Sample.tag "Site" "https://lichess.org/abcd1234"] ++ ["1. f3 e5 2. g4 Qh4# 0-1"]) 20
    = Ok features
    ∧ ∀ a, a ∈ dict_keys features
           ↔ a ∈ header_keys [Sample.tag "Site" "https://lichess.org/abcd1234"]
             ∨ a = "Ply"
             ∨ ∃ i node, analyzed 20 Sample.fools_mate i
                         ∧ Sample.fools_mate !! Z.to_nat (i - 1) = Some node
                         ∧ a ∈ node_keys i node.
Proof.
  apply (output_keys_exact (Sample.engine Sample.fools_mate)
           [Sample.tag "Site" "https://lichess.org/abcd1234"]
           "1. f3 e5 2. g4 Qh4# 0-1" Sample.fools_mate 20).
  - repeat constructor. vm_compute. eauto.
  - reflexivity.
Defined.

Lemma ply_is_mainline_length_witness :
  ∃ features,
    parse_pgn (Sample.engine Sample.fools_mate)
      ([Sample.tag "Ply" "99"] ++ ["1. f3 e5 2. g4 Qh4# 0-1"]) 20
    = Ok features
    ∧ dict_get "Ply" features = Some (VInt (Z.of_nat (length Sample.fools_mate))).
Proof.
  apply (ply_is_mainline_length (Sample.engine Sample.fools_mate)
           [Sample.tag "Ply" "99"] "1. f3 e5 2. g4 Qh4# 0-1" Sample.fools_mate 20).
  - repeat constructor. vm_compute. eauto.
  - reflexivity.
Defined.

Lemma move_of_ith_node_witness :
  ∃ features,
    parse_pgn (Sample.engine Sample.fools_mate) ([] ++ ["1. f3 e5 2. g4 Qh4# 0-1"]) 20
    = Ok features
    ∧ dict_get (ply_key 3 "move") features = Some (VStr "g2g4").
Proof.
  apply (move_of_ith_node (Sample.engine Sample.fools_mate)
           [] "1. f3 e5 2. g4 Qh4# 0-1" Sample.fools_mate 20 3 (Sample.mating "g2g4")).
  - constructor.
  - reflexivity.
  - unfold analyzed. vm_compute. split; discriminate.
  - reflexivity.
Defined.

Lemma evalaftermove_when_annotated_witness :
  ∃ features,
    parse_pgn (Sample.engine Sample.fools_mate) ([] ++ ["1. f3 e5 2. g4 Qh4# 0-1"]) 20
    = Ok features
    ∧ (∀ ev, node_eval (Sample.mating "g2g4") = Some ev →
         dict_get (ply_key 3 "evalaftermove") features
         = Some (match white_score ev with Some cp => VInt cp | None => VNone end))
    ∧ (node_eval (Sample.mating "g2g4") = None →
         ply_key 3 "evalaftermove" ∉ header_keys [] →
         dict_get (ply_key 3 "evalaftermove") features = None).
Proof.
  apply (evalaftermove_when_annotated (Sample.engine Sample.fools_mate)
           [] "1. f3 e5 2. g4 Qh4# 0-1" Sample.fools_mate 20 3 (Sample.mating "g2g4")).
  - constructor.
  - reflexivity.
  - unfold analyzed. vm_compute. split; discriminate.
  - reflexivity.
Defined.

Lemma plies_do_not_overwrite_witness :
  dict_get (ply_key 1 "move")
    (ply_features 2 (Sample.node "e7e5") [(ply_key 1 "move", VStr "e2e4")])
  = dict_get (ply_key 1 "move") [(ply_key 1 "move", VStr "e2e4")].
Proof.
  apply (plies_do_not_overwrite 1 2 "move" (Sample.node "e7e5")
           [(ply_key 1 "move", VStr "e2e4")]); lia.
Defined.

Lemma sample_run_result :
  batch_load_files_fromconsole SampleRun.engine SampleRun.ascending SampleRun.pairs
    (SampleRun.skipped ++ SampleRun.r1)
  = (finish SampleRun.ascending SampleRun.pairs SampleRun.after_r1, None).
Proof.
  unfold batch_load_files_fromconsole. by rewrite run_loop_after_r1.
Defined.

Lemma sample_unbounded_result :
  batch_load_files_fromconsole SampleRun.engine SampleRun.ascending SampleMore.unbounded
    (SampleRun.skipped ++ SampleRun.r1)
  = (finish SampleRun.ascending SampleMore.unbounded SampleRun.after_r1, None).
Proof.
  unfold batch_load_files_fromconsole.
  rewrite run_loop_app, run_loop_skipped
    by (rewrite length_skipped; unfold SKIPPED_LINES; simpl; lia).
  rewrite length_skipped.
  assert (run_loop SampleRun.engine SampleMore.unbounded
            (with_line_num init_loop (line_num init_loop + 50000000)) SampleRun.r1
          = Running SampleRun.after_r1) as -> by (vm_compute; reflexivity).
  reflexivity.
Defined.


Lemma batches_divide_the_rows_witness :
  row_counts (finish SampleRun.ascending SampleRun.pairs SampleRun.after_r1)
  = replicate
      (Z.to_nat
         (total_rows (finish SampleRun.ascending SampleRun.pairs SampleRun.after_r1)
          / batch_size SampleRun.pairs))
      (batch_size SampleRun.pairs)
    ++ [total_rows (finish SampleRun.ascending SampleRun.pairs SampleRun.after_r1)
        mod batch_size SampleRun.pairs].
Proof.
  apply (batches_divide_the_rows SampleRun.engine SampleRun.pairs SampleRun.ascending
           (SampleRun.skipped ++ SampleRun.r1)).
  - simpl. lia.
  - exact sample_run_result.
Defined.

Lemma nonpositive_batch_size_one_artifact_witness :
  artifacts (finish SampleRun.ascending SampleMore.unbounded SampleRun.after_r1)
  = [(csv_path (path_of SampleMore.unbounded) (name_of SampleMore.unbounded) 1,
      DataFrame_of
        (rows_written (finish SampleRun.ascending SampleMore.unbounded SampleRun.after_r1)))].
Proof.
  apply (nonpositive_batch_size_one_artifact SampleRun.engine SampleMore.unbounded
           SampleRun.ascending (SampleRun.skipped ++ SampleRun.r1)).
  - simpl. lia.
  - exact sample_unbounded_result.
Defined.

Lemma files_numbered_and_distinct_witness :
  ∃ k, 1 ≤ k
       ∧ paths (finish SampleRun.ascending SampleRun.pairs SampleRun.after_r1)
         = (csv_path (path_of SampleRun.pairs) (name_of SampleRun.pairs) <$> seqZ 1 k)
           ++ [schema_path (path_of SampleRun.pairs) (name_of SampleRun.pairs)]
       ∧ NoDup (paths (finish SampleRun.ascending SampleRun.pairs SampleRun.after_r1)).
Proof.
  exact (files_numbered_and_distinct SampleRun.engine SampleRun.pairs SampleRun.ascending
           (SampleRun.skipped ++ SampleRun.r1) _ sample_run_result).
Defined.


Lemma progress_lines_witness :
  stdout (finish SampleRun.ascending SampleRun.pairs SampleRun.after_r1)
  = if print_progress SampleRun.pairs
    then ((λ k, progress k (k * batch_size SampleRun.pairs))
            <$> seqZ 1 (Z.of_nat (length (artifacts
                  (finish SampleRun.ascending SampleRun.pairs SampleRun.after_r1))) - 1))
         ++ [progress
               (Z.of_nat (length (artifacts
                  (finish SampleRun.ascending SampleRun.pairs SampleRun.after_r1))))
               (total_rows (finish SampleRun.ascending SampleRun.pairs SampleRun.after_r1))]
    else [].
Proof.
  exact (progress_lines SampleRun.engine SampleRun.pairs SampleRun.ascending
           (SampleRun.skipped ++ SampleRun.r1) _ sample_run_result).
Defined.

Lemma manifest_lists_the_keys_witness :
  ∃ names,
    last (files (finish SampleRun.ascending SampleRun.pairs SampleRun.after_r1))
    = Some (schema_path (path_of SampleRun.pairs) (name_of SampleRun.pairs),
            Text (manifest names))
    ∧ lines_of (manifest names) = names
    ∧ Sorted String.le names ∧ NoDup names
    ∧ ∀ a, a ∈ names
           ↔ ∃ row, row ∈ rows_written
                            (finish SampleRun.ascending SampleRun.pairs SampleRun.after_r1)
                    ∧ a ∈ dict_keys row.
Proof.
  exact (manifest_lists_the_keys SampleRun.engine SampleRun.pairs SampleRun.ascending
           (SampleRun.skipped ++ SampleRun.r1) _ enumerates_ascending sample_run_result).
Defined.

Lemma blank_line_ignored_witness :
  batch_load_files_fromconsole SampleRun.engine SampleRun.ascending SampleRun.pairs
    (SampleRun.skipped ++ "  " :: SampleRun.r1)
  = batch_load_files_fromconsole SampleRun.engine SampleRun.ascending SampleRun.pairs
      (SampleRun.skipped ++ SampleRun.r1).
Proof.
  apply (blank_line_ignored SampleRun.engine SampleRun.pairs SampleRun.ascending
           SampleRun.skipped "  " SampleRun.r1).
  - rewrite length_skipped. unfold SKIPPED_LINES. lia.
  - reflexivity.
Defined.

Lemma skipped_lines_only_count_witness :
  batch_load_files_fromconsole SampleRun.engine SampleRun.ascending SampleRun.pairs
    (SampleRun.r1 ++ SampleRun.r2)
  = batch_load_files_fromconsole SampleRun.engine SampleRun.ascending SampleRun.pairs
      (SampleRun.r3 ++ SampleRun.r2).
Proof.
  apply (skipped_lines_only_count SampleRun.engine SampleRun.pairs SampleRun.ascending
           SampleRun.r1 SampleRun.r3 SampleRun.r2).
  - reflexivity.
  - vm_compute. discriminate.
Defined.

Lemma time_control_splits_at_plus_witness :
  SchemaBuilding.start_time "600+5" +:+ "+" +:+ SchemaBuilding.increment "600+5" = "600+5"
  ∧ SchemaBuilding.find "+" (SchemaBuilding.start_time "600+5") = -1.
Proof.
  apply (time_control_splits_at_plus "600+5"). vm_compute. discriminate.
Defined.

Lemma time_control_without_plus_witness :
  SchemaBuilding.start_time "-" = PyStr.init "-" ∧ SchemaBuilding.increment "-" = "-".
Proof. apply (time_control_without_plus "-"). reflexivity. Defined.

Lemma all_cols_exact_witness :
  Sorted String.le
    (SchemaBuilding.all_cols SampleRun.descending [["Site"; "Ply"]; ["Ply"; "Date"]])
  ∧ NoDup (SchemaBuilding.all_cols SampleRun.descending [["Site"; "Ply"]; ["Ply"; "Date"]])
  ∧ ∀ a, a ∈ SchemaBuilding.all_cols SampleRun.descending [["Site"; "Ply"]; ["Ply"; "Date"]]
         ↔ a ∈ SchemaBuilding.engineered_columns
           ∨ ∃ cols, cols ∈ [["Site"; "Ply"]; ["Ply"; "Date"]] ∧ a ∈ cols.
Proof.
  exact (all_cols_exact SampleRun.descending [["Site"; "Ply"]; ["Ply"; "Date"]]
           enumerates_descending).
Defined.

Lemma schema_is_in_written_order_witness :
  SchemaBuilding.all_cols SampleRun.descending
    [filter (λ a, a ∉ SchemaBuilding.engineered_columns) Upload.SCHEMA.*1]
  = Upload.SCHEMA.*1.
Proof.
  apply (schema_is_in_written_order SampleRun.descending
           [filter (λ a, a ∉ SchemaBuilding.engineered_columns) Upload.SCHEMA.*1]
           enumerates_descending).
  intros a. split.
  - intros Ha. destruct (decide (a ∈ SchemaBuilding.engineered_columns)) as [He|He].
    + by left.
    + right. eexists. split; [by left|]. by apply list_elem_of_filter.
  - intros [He|(cols & ->%list_elem_of_singleton & [_ Ha]%list_elem_of_filter)]; [|done].
    revert a He. apply Forall_forall. apply (bool_decide_unpack _). vm_compute. exact I.
Defined.

Lemma schema_covers_default_cap_witness :
  (ply_key 20 "move", "STRING") ∈ Upload.SCHEMA
  ∧ (ply_key 20 "timespent", "FLOAT64") ∈ Upload.SCHEMA
  ∧ (ply_key 20 "evalaftermove", "FLOAT64") ∈ Upload.SCHEMA
  ∧ (3 ≤ 20 → (ply_key 20 "eval_is_mate", "BOOL") ∈ Upload.SCHEMA)
  ∧ (ply_key 1 "eval_is_mate" ∉ Upload.SCHEMA.*1)
  ∧ (ply_key 2 "eval_is_mate" ∉ Upload.SCHEMA.*1).
Proof. apply (schema_covers_default_cap 20). lia. Defined.

Lemma schema_agrees_with_casts_witness :
  (SchemaBuilding.cast_of "white_move3_eval_is_mate" = SchemaBuilding.ToNumeric
   → "BOOL" = "FLOAT64")
  ∧ (SchemaBuilding.cast_of "white_move3_eval_is_mate" = SchemaBuilding.ToBool
     ↔ "BOOL" = "BOOL").
Proof.
  apply (schema_agrees_with_casts "white_move3_eval_is_mate" "BOOL").
  apply (bool_decide_unpack _). vm_compute. exact I.
Defined.

Lemma per_ply_columns_cast_by_field_witness :
  SchemaBuilding.cast_of (ply_key 25 "move") = SchemaBuilding.NoCast
  ∧ SchemaBuilding.cast_of (ply_key 25 "timespent") = SchemaBuilding.ToNumeric
  ∧ SchemaBuilding.cast_of (ply_key 25 "evalaftermove") = SchemaBuilding.ToNumeric
  ∧ SchemaBuilding.cast_of (ply_key 25 "eval_is_mate") = SchemaBuilding.ToBool.
Proof. apply (per_ply_columns_cast_by_field 25). lia. Defined.
